(** * Dante Propiedades: the chat pipeline of the inquiry service

    A shallow embedding of the free-text filter extractor
    ([logic/filters.py]), the catalogue query
    ([backend/logic/database.py]), the Gemini gateway with key rotation
    ([logic/gemini_client.py]) and the two chat handlers ([main.py], the
    Flask application, and [backend/main-ai.py], the FastAPI application),
    followed by the properties proved about them. *)

From Stdlib Require Import QArith Qcanon.
From stdpp Require Import base option list sorting gmap pretty.

Local Open Scope N_scope.

(** ** Python strings *)

(** A Python [str] is a sequence of Unicode code points: [len], indexing,
    [in] and the [re] module all work on code points, not on bytes. *)
Abbreviation pystr := (list N).

Module Utf8.
(** Literals are written as UTF-8 text and decoded to code points. *)

Definition byte_of (a : Ascii.ascii) : N := Ascii.N_of_ascii a.

(** [go pending acc bs]: [pending] continuation bytes are still owed to the
    code point being assembled in [acc]. *)
Fixpoint go (pending : nat) (acc : N) (bs : list N) : list N :=
  match bs with
  | [] => []
  | b :: bs' =>
      match pending with
      | O =>
          if b <? 128 then b :: go O 0 bs'
          else if b <? 224 then go 1%nat (b - 192) bs'
          else if b <? 240 then go 2%nat (b - 224) bs'
          else go 3%nat (b - 240) bs'
      | S O => (acc * 64 + (b - 128)) :: go O 0 bs'
      | S p => go p (acc * 64 + (b - 128)) bs'
      end
  end.

Definition decode (s : string) : list N :=
  go O 0 (byte_of <$> String.list_ascii_of_string s).
End Utf8.

Abbreviation py := Utf8.decode.

(** [sub in text] *)
Fixpoint starts_with (sub text : pystr) : bool :=
  match sub, text with
  | [], _ => true
  | _ :: _, [] => false
  | a :: sub', b :: text' => (a =? b) && starts_with sub' text'
  end.

Fixpoint contains (sub text : pystr) : bool :=
  starts_with sub text ||
  match text with
  | [] => false
  | _ :: text' => contains sub text'
  end.

(** The relation that [contains] decides. *)
Definition occurs_in (sub text : pystr) : Prop :=
  ∃ before after, text = before ++ sub ++ after.

(** [str.isspace] of one character (CPython 3.11, Unicode 14); the same set
    is the [\s] of [re] on [str] patterns. *)
Definition isspace (c : N) : bool :=
  ((9 <=? c) && (c <=? 13)) || ((28 <=? c) && (c <=? 32))
  || (c =? 133) || (c =? 160) || (c =? 5760)
  || ((8192 <=? c) && (c <=? 8202)) || (c =? 8232) || (c =? 8233)
  || (c =? 8239) || (c =? 8287) || (c =? 12288).

(** First code point of every block of ten decimal digits (category Nd);
    the mathematical digits U+1D7CE..U+1D7FF are five blocks in a row. *)
Definition decimal_blocks : list N :=
  [ 48; 1632; 1776; 1984; 2406; 2534; 2662; 2790; 2918; 3046; 3174; 3302;
    3430; 3558; 3664; 3792; 3872; 4160; 4240; 6112; 6160; 6470; 6608; 6784;
    6800; 6992; 7088; 7232; 7248; 42528; 43216; 43264; 43472; 43504; 43600;
    44016; 65296; 66720; 68912; 69734; 69872; 69942; 70096; 70384; 70736;
    70864; 71248; 71360; 71472; 71904; 72016; 72784; 73040; 73120; 92768;
    92864; 93008; 120782; 120792; 120802; 120812; 120822; 123200; 123632;
    125264; 130032 ].

(** The value of a decimal digit, [None] for any other character. *)
Definition decimal_value (c : N) : option N :=
  (λ found : nat * N, c - found.2) <$>
    list_find (λ start, start ≤ c ∧ c < start + 10) decimal_blocks.

(** [str.isdecimal] of one character, which is also the [\d] of [re]. *)
Definition isdecimal (c : N) : bool := bool_decide (is_Some (decimal_value c)).

(** Characters with the Digit property that are not decimal digits
    (superscripts, circled digits and the like), as inclusive ranges. *)
Definition other_digit_ranges : list (N * N) :=
  [ (178, 179); (185, 185); (4969, 4977); (6618, 6618); (8304, 8304);
    (8308, 8313); (8320, 8329); (9312, 9320); (9332, 9340); (9352, 9360);
    (9450, 9450); (9461, 9469); (9471, 9471); (10102, 10110);
    (10112, 10120); (10122, 10130); (68160, 68163); (69216, 69224);
    (69714, 69722); (127232, 127242) ].

(** [str.isdigit] of one character. *)
Definition isdigit (c : N) : bool :=
  isdecimal c ||
  existsb (λ r : N * N, (r.1 <=? c) && (c <=? r.2)) other_digit_ranges.

(** [str.strip()] *)
Fixpoint lstrip (s : pystr) : pystr :=
  match s with
  | c :: s' => if isspace c then lstrip s' else s
  | [] => []
  end.

Definition rstrip (s : pystr) : pystr := rev (lstrip (rev s)).

Definition strip (s : pystr) : pystr := rstrip (lstrip s).

(** [str.split(sep)] for a one-character separator: always at least one
    piece. *)
Fixpoint split (sep : N) (s : pystr) : list pystr :=
  match s with
  | [] => [[]]
  | c :: s' =>
      if c =? sep then [] :: split sep s'
      else match split sep s' with
           | piece :: pieces => (c :: piece) :: pieces
           | [] => [[c]]
           end
  end.

(** [sep.join(pieces)] *)
Fixpoint join (sep : pystr) (pieces : list pystr) : pystr :=
  match pieces with
  | [] => []
  | [piece] => piece
  | piece :: rest => piece ++ sep ++ join sep rest
  end.

(** [str(n)] and the [{n}] of an f-string for an integer. *)
Definition str_of_Z (n : Z) : pystr := py (pretty n).
Definition str_of_nat (n : nat) : pystr := py (pretty n).

(** Case mapping of the Basic Latin and Latin-1 Supplement blocks. *)
Definition lower_latin (c : N) : N :=
  if ((65 <=? c) && (c <=? 90))
     || ((192 <=? c) && (c <=? 222) && negb (c =? 215))
  then c + 32 else c.

(** [str.lower()].  Its full table belongs to the interpreter; what the
    pipeline relies on is its behaviour on text made of Latin-1 characters
    and white space, where it maps character by character. *)
Class StrLower := {
  str_lower : pystr → pystr;
  str_lower_latin s :
    Forall (λ c, c < 256 ∨ isspace c = true) s →
    str_lower s = lower_latin <$> s
}.

(** The instance used to run the model on Latin text: characters outside
    Latin-1 are left as they are. *)
Definition latin_lower : StrLower :=
  {| str_lower s := lower_latin <$> s; str_lower_latin _ _ := eq_refl |}.

(** [int(s)] for a string without sign, underscores or surrounding white
    space, the only strings the extractor passes: [None] is [ValueError]. *)
Definition int_of_digits (s : pystr) : Z :=
  fold_left (λ n c, n * 10 + Z.of_N (default 0%N (decimal_value c)))%Z s 0%Z.

Definition py_int (s : pystr) : option Z :=
  match s with
  | [] => None
  | _ => if forallb isdecimal s then Some (int_of_digits s) else None
  end.

(** [s.replace(old, '')] for a one-character [old]. *)
Definition remove_char (old : N) (s : pystr) : pystr :=
  filter (λ c, c ≠ old) s.

(** ** The [re] module, as far as [logic/filters.py] uses it *)

Module Re.

(** One-character matchers; [Set_] is a bracket expression. *)
Inductive item := IChar (c : N) | IRange (lo hi : N) | ISpace.

Inductive atom :=
| Char (c : N)
| Set_ (items : list item)
| Space
| Digit
| Dot.

(** Repetition is only ever applied to a one-character matcher in the
    patterns of this program. *)
Inductive regex :=
| Atom (a : atom)
| Lit (s : pystr)
| Seq (r1 r2 : regex)
| Alt (r1 r2 : regex)
| Opt (r : regex)
| Star (a : atom)
| Plus (a : atom)
| LazyStar (a : atom)
| Group (n : nat) (r : regex)
| End.

Definition item_matches (i : item) (c : N) : bool :=
  match i with
  | IChar c' => c =? c'
  | IRange lo hi => (lo <=? c) && (c <=? hi)
  | ISpace => isspace c
  end.

Definition atom_matches (a : atom) (c : N) : bool :=
  match a with
  | Char c' => c =? c'
  | Set_ items => existsb (λ i, item_matches i c) items
  | Space => isspace c
  | Digit => isdecimal c
  | Dot => negb (c =? 10)
  end.

(** The groups bound so far, most recent binding first. *)
Definition captures := list (nat * pystr).

Definition bound (n : nat) (m : captures) : option pystr :=
  snd <$> find (λ b : nat * pystr, bool_decide (b.1 = n)) m.

(** [match.group(n)]; every pattern below has its group 1 outside any
    optional part, so a match always binds it. *)
Definition group (n : nat) (m : captures) : pystr := default [] (bound n m).

Section Matcher.
Context {R : Type}.

(** [a*], longest run first, giving back one character at a time. *)
Fixpoint greedy (a : atom) (s : pystr) (k : pystr → option R) : option R :=
  match s with
  | c :: s' =>
      if atom_matches a c
      then match greedy a s' k with
           | Some r => Some r
           | None => k s
           end
      else k s
  | [] => k s
  end.

(** [a*?], shortest run first. *)
Fixpoint lazy (a : atom) (s : pystr) (k : pystr → option R) : option R :=
  match k s with
  | Some r => Some r
  | None =>
      match s with
      | c :: s' => if atom_matches a c then lazy a s' k else None
      | [] => None
      end
  end.

Fixpoint strip_prefix (l s : pystr) : option pystr :=
  match l, s with
  | [], _ => Some s
  | _ :: _, [] => None
  | a :: l', b :: s' => if a =? b then strip_prefix l' s' else None
  end.
End Matcher.

(** Backtracking matcher in continuation-passing style: [rmatch r s m k]
    matches [r] at the front of [s] and hands the rest of the text and
    the captures to [k]; alternatives are tried in the order of the
    [sre] engine. *)
Fixpoint rmatch (r : regex) (s : pystr) (m : captures)
    (k : pystr → captures → option captures) : option captures :=
  match r with
  | Atom a =>
      match s with
      | c :: s' => if atom_matches a c then k s' m else None
      | [] => None
      end
  | Lit l =>
      match strip_prefix l s with
      | Some s' => k s' m
      | None => None
      end
  | Seq r1 r2 => rmatch r1 s m (λ s1 m1, rmatch r2 s1 m1 k)
  | Alt r1 r2 =>
      match rmatch r1 s m k with
      | Some res => Some res
      | None => rmatch r2 s m k
      end
  | Opt r1 =>
      match rmatch r1 s m k with
      | Some res => Some res
      | None => k s m
      end
  | Star a => greedy a s (λ s', k s' m)
  | Plus a =>
      match s with
      | c :: s' => if atom_matches a c then greedy a s' (λ s', k s' m) else None
      | [] => None
      end
  | LazyStar a => lazy a s (λ s', k s' m)
  | Group n r1 =>
      rmatch r1 s m
        (λ s' m', k s' ((n, take (length s - length s') s) :: m'))
  | End =>
      match s with
      | [] | [10] => k s m
      | _ => None
      end
  end.

(** [re.search(pattern, text)]: the match at the leftmost position that
    has one. *)
Fixpoint search (r : regex) (text : pystr) : option captures :=
  match rmatch r text [] (λ _ m, Some m) with
  | Some m => Some m
  | None =>
      match text with
      | [] => None
      | _ :: text' => search r text'
      end
  end.

End Re.

(** ** Values and dictionaries *)

(** The JSON scalars a filter dictionary holds.  A JSON number is modelled
    as an integer. *)
Inductive pyval :=
| PNone
| PBool (b : bool)
| PInt (n : Z)
| PStr (s : pystr).

#[export] Instance pyval_eq_dec : EqDecision pyval.
Proof. solve_decision. Defined.

(** Truth value of an object, as [if x:] tests it. *)
Definition truthy (v : pyval) : bool :=
  match v with
  | PNone => false
  | PBool b => b
  | PInt n => negb (n =? 0)%Z
  | PStr s => negb (bool_decide (s = []))
  end.

(** Truth value of an [Optional[str]] variable. *)
Definition str_truthy (o : option pystr) : bool :=
  match o with
  | Some (_ :: _) => true
  | _ => false
  end.

(** A [Dict[str, Any]] of filters. *)
Abbreviation filter_dict := (gmap pystr pyval).

(** ** [logic/filter_data.py] *)

Definition BARRIOS : list pystr :=
  [ py "Parque Avellaneda"; py "Boedo"; py "Microcentro"; py "Pilar";
    py "Colegiales"; py "Palermo"; py "Belgrano"; py "Recoleta";
    py "Almagro"; py "Villa Crespo"; py "San Isidro"; py "Vicente Lopez" ].

Definition OPERACIONES : list pystr := [ py "venta"; py "alquiler" ].

Definition TIPOS : list pystr :=
  [ py "casa"; py "terreno"; py "departamento"; py "oficina"; py "ph";
    py "casaquinta" ].

(** ** [logic/filters.py] *)

Module Patterns.
Import Re.

(** The character written between the quotes. *)
Definition chr (s : string) : N := hd 0 (py s).

Fixpoint cat (rs : list regex) : regex :=
  match rs with
  | [] => Lit []
  | [r] => r
  | r :: rs' => Seq r (cat rs')
  end.

(** [([a-zA-Záéíóúñ\s]+)] *)
Definition barrio_group : regex :=
  Group 1 (Plus (Set_ [ IRange (chr "a") (chr "z"); IRange (chr "A") (chr "Z");
                        IChar (chr "á"); IChar (chr "é"); IChar (chr "í");
                        IChar (chr "ó"); IChar (chr "ú"); IChar (chr "ñ");
                        ISpace ])).

Definition barrio_patterns : list regex :=
  [ cat [Lit (py "en "); barrio_group];
    cat [Lit (py "barrio "); barrio_group];
    cat [Lit (py "zona "); barrio_group];
    cat [Lit (py "de "); barrio_group; End] ].

(** [\$?\s*([0-9\.]+)] *)
Definition amount : regex :=
  cat [ Opt (Atom (Char (chr "$"))); Star Space;
        Group 1 (Plus (Set_ [IRange (chr "0") (chr "9"); IChar (chr ".")])) ].

(** [\s*(usd|dólares|dolares)?] *)
Definition optional_currency : regex :=
  cat [ Star Space;
        Opt (Group 2 (Alt (Lit (py "usd"))
                       (Alt (Lit (py "dólares")) (Lit (py "dolares"))))) ].

Definition precio_patterns : list regex :=
  [ cat [Lit (py "hasta "); amount; optional_currency];
    cat [Lit (py "máximo "); amount; optional_currency];
    cat [Lit (py "precio"); LazyStar Dot; amount; optional_currency];
    cat [Lit (py "menos de "); amount; optional_currency];
    cat [ amount; Star Space;
          Group 2 (Alt (Lit (py "usd"))
                    (Alt (Lit (py "dólares"))
                      (Alt (Lit (py "dolares")) (Lit (py "pesos"))))) ] ].

(** [desde \$?\s*([0-9\.]+)] *)
Definition min_price_pattern : regex := cat [Lit (py "desde "); amount].

(** [(\d+)\s*word] *)
Definition count_of (word : string) : regex :=
  cat [Group 1 (Plus Digit); Star Space; Lit (py word)].
End Patterns.

Definition k_neighborhood : pystr := py "neighborhood".
Definition k_barrio : pystr := py "barrio".
Definition k_tipo : pystr := py "tipo".
Definition k_operacion : pystr := py "operacion".
Definition k_max_price : pystr := py "max_price".
Definition k_min_price : pystr := py "min_price".
Definition k_min_rooms : pystr := py "min_rooms".
Definition k_min_sqm : pystr := py "min_sqm".
Definition k_max_sqm : pystr := py "max_sqm".

(** [for word in vocabulary: if word in text: ...; break] *)
Definition first_in (vocabulary : list pystr) (text : pystr) : option pystr :=
  find (λ word, contains word text) vocabulary.

(** [a or b] on two match objects (a match object is always true). *)
Definition or_match (a b : option Re.captures) : option Re.captures :=
  match a with
  | Some m => Some m
  | None => b
  end.

Section Extractor.
Context `{StrLower}.

(** The loop over [barrio_patterns]: the first pattern whose captured
    span, stripped and lower-cased, is a gazetteer entry. *)
Fixpoint barrio_from_patterns (patterns : list Re.regex)
    (barrios_disponibles : list pystr) (text_lower : pystr) : option pystr :=
  match patterns with
  | [] => None
  | pattern :: rest =>
      match Re.search pattern text_lower with
      | Some m =>
          let potential_barrio := str_lower (strip (Re.group 1 m)) in
          if bool_decide (potential_barrio ∈ barrios_disponibles)
          then Some potential_barrio
          else barrio_from_patterns rest barrios_disponibles text_lower
      | None => barrio_from_patterns rest barrios_disponibles text_lower
      end
  end.

(** The loop over [precio_patterns]: a pattern whose number does not
    parse is skipped ([except ValueError: continue]). *)
Fixpoint max_price_from (patterns : list Re.regex) (text_lower : pystr)
    : option Z :=
  match patterns with
  | [] => None
  | pattern :: rest =>
      match Re.search pattern text_lower with
      | Some m =>
          match py_int (remove_char (Patterns.chr ".") (Re.group 1 m)) with
          | Some precio => Some precio
          | None => max_price_from rest text_lower
          end
      | None => max_price_from rest text_lower
      end
  end.

Definition detect_filters (text_lower : pystr) : filter_dict :=
  let filters : filter_dict := ∅ in
  let barrios_disponibles := str_lower <$> BARRIOS in
  let tipos_disponibles := str_lower <$> TIPOS in
  let operaciones_disponibles := str_lower <$> OPERACIONES in
  (* Detección de barrio *)
  let barrio_detectado := first_in barrios_disponibles text_lower in
  let barrio_detectado :=
    if str_truthy barrio_detectado then barrio_detectado
    else match barrio_from_patterns Patterns.barrio_patterns
                 barrios_disponibles text_lower with
         | Some potential_barrio => Some potential_barrio
         | None => barrio_detectado
         end in
  let filters :=
    match barrio_detectado with
    | Some barrio =>
        if str_truthy barrio_detectado
        then <[k_neighborhood := PStr barrio]> filters else filters
    | None => filters
    end in
  (* Detección de tipo *)
  let filters :=
    match first_in tipos_disponibles text_lower with
    | Some tipo => <[k_tipo := PStr tipo]> filters
    | None => filters
    end in
  (* Detección de operación *)
  let filters :=
    match first_in operaciones_disponibles text_lower with
    | Some operacion => <[k_operacion := PStr operacion]> filters
    | None => filters
    end in
  (* Detección de precio *)
  let filters :=
    match max_price_from Patterns.precio_patterns text_lower with
    | Some precio => <[k_max_price := PInt precio]> filters
    | None => filters
    end in
  (* Precio mínimo *)
  let filters :=
    match Re.search Patterns.min_price_pattern text_lower with
    | Some m =>
        match py_int (remove_char (Patterns.chr ".") (Re.group 1 m)) with
        | Some min_price => <[k_min_price := PInt min_price]> filters
        | None => filters
        end
    | None => filters
    end in
  (* Ambientes *)
  let filters :=
    match or_match (Re.search (Patterns.count_of "amb") text_lower)
                   (Re.search (Patterns.count_of "ambiente") text_lower) with
    | Some m => <[k_min_rooms := PInt (int_of_digits (Re.group 1 m))]> filters
    | None => filters
    end in
  (* Metros cuadrados *)
  let filters :=
    match or_match (Re.search (Patterns.count_of "m2") text_lower)
                   (Re.search (Patterns.count_of "metros") text_lower) with
    | Some m => <[k_min_sqm := PInt (int_of_digits (Re.group 1 m))]> filters
    | None => filters
    end in
  filters.
End Extractor.


(** ** The catalogue: [backend/logic/database.py] *)

(** A row of table [properties]; ['media] is the representation of the
    three JSON columns, text in the table and a decoded value in the
    dictionaries [query_properties] returns. *)
Record property_of (media : Type) := Property {
  id_temporal : pystr;
  titulo : pystr;
  barrio : pystr;
  precio : Qc;
  ambientes : Z;
  metros_cuadrados : Qc;
  descripcion : option pystr;
  operacion : pystr;
  tipo : pystr;
  direccion : option pystr;
  antiguedad : option Z;
  estado : option pystr;
  orientacion : option pystr;
  expensas : option Qc;
  amenities : option pystr;
  cochera : option pystr;
  balcon : option pystr;
  pileta : option pystr;
  acepta_mascotas : option pystr;
  aire_acondicionado : option pystr;
  info_multimedia : option pystr;
  documentos : option media;
  videos : option media;
  fotos : option media;
  moneda_precio : option pystr;
  moneda_expensas : option pystr;
  fecha_procesamiento : option pystr
}.

Arguments Property {media}.
Arguments id_temporal {media}.
Arguments titulo {media}.
Arguments barrio {media}.
Arguments precio {media}.
Arguments ambientes {media}.
Arguments metros_cuadrados {media}.
Arguments descripcion {media}.
Arguments operacion {media}.
Arguments tipo {media}.
Arguments direccion {media}.
Arguments antiguedad {media}.
Arguments estado {media}.
Arguments orientacion {media}.
Arguments expensas {media}.
Arguments amenities {media}.
Arguments cochera {media}.
Arguments balcon {media}.
Arguments pileta {media}.
Arguments acepta_mascotas {media}.
Arguments aire_acondicionado {media}.
Arguments info_multimedia {media}.
Arguments documentos {media}.
Arguments videos {media}.
Arguments fotos {media}.
Arguments moneda_precio {media}.
Arguments moneda_expensas {media}.
Arguments fecha_procesamiento {media}.

(** What the SQLite engine and the [json] module contribute: the numeric
    reading of a text operand compared with a numeric column (its affinity
    conversion) and the JSON decoder. *)
Class Engine := {
  numeric_of_text : pystr → option Qc;
  json : Type;
  json_loads : pystr → option json;
  json_empty_list : json
}.

Module Sql.

(** A value as SQLite stores it once bound. *)
Inductive value := Null | Integer (n : Z) | Text (s : pystr).

(** Binding a Python object to a [?]: [None] is an [OverflowError],
    raised for an [int] outside the 64-bit range. *)
Definition bind (v : pyval) : option value :=
  match v with
  | PNone => Some Null
  | PBool b => Some (Integer (if b then 1 else 0))
  | PInt n =>
      if ((- 2 ^ 63 <=? n) && (n <? 2 ^ 63))%Z then Some (Integer n) else None
  | PStr s => Some (Text s)
  end.

Inductive column :=
| c_barrio | c_precio | c_ambientes | c_operacion | c_tipo | c_metros_cuadrados.

Inductive operator := LIKE | GE | LE | EQ.

(** One [AND column operator ?] together with its parameter. *)
Record condition := And {
  cond_column : column;
  cond_operator : operator;
  cond_param : pyval
}.

(** Case folding of [LIKE]: ASCII letters only. *)
Definition fold_ascii (c : N) : N :=
  if (65 <=? c) && (c <=? 90) then c + 32 else c.

(** [text LIKE pattern]: [%] is any run of characters, [_] any one. *)
Fixpoint like (pattern text : pystr) : bool :=
  match pattern with
  | [] => bool_decide (text = [])
  | p :: pattern' =>
      if p =? 37 then
        (fix any_run (t : pystr) : bool :=
           like pattern' t ||
           match t with
           | [] => false
           | _ :: t' => any_run t'
           end) text
      else
        match text with
        | [] => false
        | c :: text' =>
            ((p =? 95) || (fold_ascii p =? fold_ascii c)) && like pattern' text'
        end
  end.

Section Compare.
Context `{Engine}.

(** [column >= ?] and [column <= ?] on a column of numeric affinity:
    a text operand that reads as a number is compared as that number,
    any other text sorts after every number, and [NULL] compares to
    nothing. *)
Definition numeric_ge (x : Qc) (v : value) : bool :=
  match v with
  | Null => false
  | Integer n => bool_decide (Qc_of_Z n ≤ x)%Qc
  | Text s =>
      match numeric_of_text s with
      | Some q => bool_decide (q ≤ x)%Qc
      | None => false
      end
  end.

Definition numeric_le (x : Qc) (v : value) : bool :=
  match v with
  | Null => false
  | Integer n => bool_decide (x ≤ Qc_of_Z n)%Qc
  | Text s =>
      match numeric_of_text s with
      | Some q => bool_decide (x ≤ q)%Qc
      | None => true
      end
  end.

(** [column = ?] on a text column: an integer operand is compared
    through its decimal text. *)
Definition text_eq (x : pystr) (v : value) : bool :=
  match v with
  | Null => false
  | Integer n => bool_decide (x = str_of_Z n)
  | Text s => bool_decide (x = s)
  end.

Definition text_like (x : pystr) (v : value) : bool :=
  match v with
  | Null => false
  | Integer n => like (str_of_Z n) x
  | Text s => like s x
  end.

(** Whether a row satisfies a condition whose parameter is bound to
    [v].  The query builder only ever pairs [LIKE] and [=] with text
    columns and the two inequalities with numeric ones. *)
Definition holds {media} (row : property_of media) (c : column)
    (o : operator) (v : value) : bool :=
  match c, o with
  | c_barrio, LIKE => text_like (barrio row) v
  | c_barrio, EQ => text_eq (barrio row) v
  | c_operacion, LIKE => text_like (operacion row) v
  | c_operacion, EQ => text_eq (operacion row) v
  | c_tipo, LIKE => text_like (tipo row) v
  | c_tipo, EQ => text_eq (tipo row) v
  | c_precio, GE => numeric_ge (precio row) v
  | c_precio, LE => numeric_le (precio row) v
  | c_ambientes, GE => numeric_ge (Qc_of_Z (ambientes row)) v
  | c_ambientes, LE => numeric_le (Qc_of_Z (ambientes row)) v
  | c_metros_cuadrados, GE => numeric_ge (metros_cuadrados row) v
  | c_metros_cuadrados, LE => numeric_le (metros_cuadrados row) v
  | _, _ => false
  end.
End Compare.

(** [ORDER BY precio ASC]; the order of rows of equal price is left to
    the engine, and nothing below depends on it. *)
Definition precio_le {media} (a b : property_of media) : Prop :=
  (precio a ≤ precio b)%Qc.

#[export] Instance precio_le_dec {media} : RelDecision (@precio_le media) :=
  λ a b, decide (precio a ≤ precio b)%Qc.

Definition order_by_precio {media} (rows : list (property_of media))
    : list (property_of media) :=
  merge_sort precio_le rows.

End Sql.

(** The [{v}] of an f-string. *)
Definition py_format (v : pyval) : pystr :=
  match v with
  | PNone => py "None"
  | PBool true => py "True"
  | PBool false => py "False"
  | PInt n => str_of_Z n
  | PStr s => s
  end.

(** ['k' in filters and filters['k']]: the value when the key is present
    and true. *)
Definition active (filters : filter_dict) (k : pystr) : option pyval :=
  match filters !! k with
  | Some v => if truthy v then Some v else None
  | None => None
  end.

Section Query.
Context `{Engine}.
Import Sql.

(** A stored row, and the dictionary built from it. *)
Definition row : Type := property_of pystr.
Definition prop_dict : Type := property_of json.

(** [if 'k' in filters and filters['k']: query += ...; params.append(...)] *)
Definition when_active (filters : filter_dict) (k : pystr)
    (c : column) (o : operator) (param : pyval → pyval) : list condition :=
  match active filters k with
  | Some v => [And c o (param v)]
  | None => []
  end.

(** [f"%{v}%"] *)
Definition substring_pattern (v : pyval) : pyval :=
  PStr (py "%" ++ py_format v ++ py "%").

(** The conditions appended to [SELECT * FROM properties WHERE 1=1], in
    the order of the source. *)
Definition where_conditions (filters : filter_dict) : list condition :=
  when_active filters k_neighborhood c_barrio LIKE substring_pattern
  ++ when_active filters k_barrio c_barrio LIKE substring_pattern
  ++ when_active filters k_min_price c_precio GE id
  ++ when_active filters k_max_price c_precio LE id
  ++ when_active filters k_min_rooms c_ambientes GE id
  ++ when_active filters k_operacion c_operacion EQ id
  ++ when_active filters k_tipo c_tipo EQ id
  ++ when_active filters k_min_sqm c_metros_cuadrados GE id
  ++ when_active filters k_max_sqm c_metros_cuadrados LE id.

Definition bind_condition (c : condition)
    : option (column * operator * value) :=
  v ← bind (cond_param c); Some (cond_column c, cond_operator c, v).

Definition satisfies (r : row) (conds : list (column * operator * value))
    : bool :=
  forallb (λ c : column * operator * value, holds r c.1.1 c.1.2 c.2) conds.

(** [cursor.execute(query, params); cursor.fetchall()]: [None] when
    binding a parameter raises. *)
Definition execute (db : list row) (conds : list condition)
    : option (list row) :=
  bound ← mapM bind_condition conds;
  Some (order_by_precio (filter (λ r, satisfies r bound) db)).

(** [json.loads] of a column that holds text; an undecodable text
    becomes the empty list. *)
Definition parse_media (field : option pystr) : option json :=
  (λ s, default json_empty_list (json_loads s)) <$> field.

Definition to_dict (r : row) : prop_dict :=
  {| id_temporal := id_temporal r; titulo := titulo r; barrio := barrio r;
     precio := precio r; ambientes := ambientes r;
     metros_cuadrados := metros_cuadrados r; descripcion := descripcion r;
     operacion := operacion r; tipo := tipo r;
     direccion := direccion r; antiguedad := antiguedad r;
     estado := estado r; orientacion := orientacion r;
     expensas := expensas r; amenities := amenities r;
     cochera := cochera r; balcon := balcon r; pileta := pileta r;
     acepta_mascotas := acepta_mascotas r;
     aire_acondicionado := aire_acondicionado r;
     info_multimedia := info_multimedia r;
     documentos := parse_media (documentos r);
     videos := parse_media (videos r);
     fotos := parse_media (fotos r);
     moneda_precio := moneda_precio r;
     moneda_expensas := moneda_expensas r;
     fecha_procesamiento := fecha_procesamiento r |}.

(** [query_properties(filters)] against the table [db]; the [except]
    branch returns the empty list. *)
Definition query_properties (db : list row) (filters : filter_dict)
    : list prop_dict :=
  match execute db (where_conditions filters) with
  | Some rows => to_dict <$> rows
  | None => []
  end.

(** ** [logic/gemini_client.py] *)

(** The fifth positional argument of [build_prompt]: a text in
    [main-ai.py], the history list in [main.py]. *)
Inductive style_hint := HintText (s : pystr) | HintList (l : list pystr).

(** The prompt, kept as the branch taken and the values interpolated
    into its text. *)
Inductive prompt :=
| ResultsPrompt (user_text : pystr) (results : list prop_dict)
    (whatsapp_tone : bool)
| NoResultsPrompt (user_text : pystr) (filters : filter_dict)
| GeneralPrompt (user_text : pystr) (whatsapp_tone : bool)
    (hint : style_hint).

Definition build_prompt (user_text : pystr)
    (results : option (list prop_dict)) (filters : filter_dict)
    (channel : pystr) (hint : style_hint) : prompt :=
  let whatsapp_tone := bool_decide (channel = py "whatsapp") in
  match results with
  | Some ((_ :: _) as found) => ResultsPrompt user_text found whatsapp_tone
  | Some [] => NoResultsPrompt user_text filters
  | None => GeneralPrompt user_text whatsapp_tone hint
  end.

Definition get_fallback_response : pystr :=
  join [10]
    [ py "🤖 **Dante Propiedades**";
      py "";
      py "¡Hola! La aplicación está funcionando pero hay un problema temporal con el servicio de IA.";
      py "";
      py "**Sistema disponible:**";
      py "✅ Búsqueda de propiedades";
      py "✅ Filtros por barrio, precio, tipo";
      py "✅ Base de datos cargada";
      py "";
      py "⚠️ **El modo conversacional IA está temporalmente desactivado.**";
      py "";
      py "**Cómo usar:**";
      py "1. Escribí tu búsqueda (ej: " ++ [34] ++ py "departamento en palermo" ++ [34] ++ py ")";
      py "2. La app encontrará propiedades relevantes";
      py "3. Usá los filtros para refinar resultados";
      py "";
      py "🏠 **¡La búsqueda de propiedades funciona perfectamente!**" ].

(** [API_KEYS]: the variables [GEMINI_API_KEY_1] to [_3] that are set and
    not blank, stripped. *)
Definition load_api_keys (environ : pystr → option pystr) : list pystr :=
  flat_map
    (λ key_name,
       match environ key_name with
       | Some key_value =>
           if str_truthy (Some key_value) && str_truthy (Some (strip key_value))
           then [strip key_value] else []
       | None => []
       end)
    [py "GEMINI_API_KEY_1"; py "GEMINI_API_KEY_2"; py "GEMINI_API_KEY_3"].

(** What one completion attempt comes to: an exception anywhere in the
    [try] block, or a response with [parts] content parts whose [.text]
    is [text] ([None] when reading it raises). *)
Inductive outcome :=
| Raises
| Responds (parts : nat) (text : option pystr).

(** One completion call issued to the provider. *)
Definition attempt : Type := pystr * prompt.

(** The provider: the outcome of the attempt made with a key and a
    prompt after [n] earlier attempts. *)
Class Provider := generate_content : nat → pystr → prompt → outcome.

Section Gateway.
Context `{Provider}.

(** [for i, key in enumerate(API_KEYS): try: ... except: continue],
    threading the list of attempts made so far. *)
Fixpoint rotate (keys : list pystr) (p : prompt) (made : list attempt)
    : pystr * list attempt :=
  match keys with
  | [] => (get_fallback_response, made)
  | key :: rest =>
      let made' := made ++ [(key, p)] in
      match generate_content (length made) key p with
      | Responds (S _) (Some text) => (strip text, made')
      | _ => rotate rest p made'
      end
  end.

Definition call_gemini_with_rotation (API_KEYS : list pystr) (p : prompt)
    (made : list attempt) : pystr * list attempt :=
  match API_KEYS with
  | [] => (get_fallback_response, made)
  | _ => rotate API_KEYS p made
  end.
End Gateway.
End Query.

(** ** The conversation log and the process state *)

(** A row of table [logs]; its time stamp and response time are wall-clock
    readings and are left out. *)
Record turn := Turn {
  log_channel : pystr;
  log_user_message : pystr;
  log_bot_response : pystr;
  log_search_performed : bool;
  log_results_count : nat
}.

(** The counters of class [Metrics]. *)
Record Metrics := {
  requests_count : nat;
  successful_requests : nat;
  failed_requests : nat;
  gemini_calls : nat;
  search_queries : nat
}.

Definition increment_requests (m : Metrics) : Metrics :=
  {| requests_count := S (requests_count m);
     successful_requests := successful_requests m;
     failed_requests := failed_requests m;
     gemini_calls := gemini_calls m; search_queries := search_queries m |}.
Definition increment_success (m : Metrics) : Metrics :=
  {| requests_count := requests_count m;
     successful_requests := S (successful_requests m);
     failed_requests := failed_requests m;
     gemini_calls := gemini_calls m; search_queries := search_queries m |}.
Definition increment_failures (m : Metrics) : Metrics :=
  {| requests_count := requests_count m;
     successful_requests := successful_requests m;
     failed_requests := S (failed_requests m);
     gemini_calls := gemini_calls m; search_queries := search_queries m |}.
Definition increment_gemini_calls (m : Metrics) : Metrics :=
  {| requests_count := requests_count m;
     successful_requests := successful_requests m;
     failed_requests := failed_requests m;
     gemini_calls := S (gemini_calls m); search_queries := search_queries m |}.
Definition increment_searches (m : Metrics) : Metrics :=
  {| requests_count := requests_count m;
     successful_requests := successful_requests m;
     failed_requests := failed_requests m;
     gemini_calls := gemini_calls m; search_queries := S (search_queries m) |}.

(** [get_historial_canal(canal)]: the five most recent turns of the
    channel, newest first, two lines each.  [logs] is in insertion order. *)
Definition get_historial_canal (logs : list turn) (canal : pystr)
    : list pystr :=
  flat_map
    (λ t, [py "Usuario: " ++ log_user_message t;
           py "Bot: " ++ log_bot_response t])
    (take 5 (filter (λ t, log_channel t = canal) (rev logs))).

(** [log_conversation(...)]: one row appended. *)
Definition log_conversation (user_message bot_response channel : pystr)
    (search_performed : bool) (results_count : nat) (logs : list turn)
    : list turn :=
  logs ++ [Turn channel user_message bot_response search_performed
             results_count].

(** ** The response clean-up of [backend/main-ai.py] *)

Module Emoji.
Definition house : pystr := py "🏠".
Definition pin : pystr := py "📍".
Definition money : pystr := py "💰".
Definition clipboard : pystr := py "📋".
Definition speech : pystr := py "💬".
End Emoji.

(** The test that opens a listing: the stripped line starts with a digit
    and holds a dot, a closing parenthesis, a house or a pin. *)
Definition starts_listing (line_stripped : pystr) : bool :=
  match line_stripped with
  | [] => false
  | first :: _ =>
      isdigit first &&
      (contains (py ".") line_stripped || contains (py ")") line_stripped
       || contains Emoji.house line_stripped
       || contains Emoji.pin line_stripped)
  end.

Definition has_property_emoji (line : pystr) : bool :=
  existsb (λ emoji, contains emoji line)
    [Emoji.house; Emoji.pin; Emoji.money; Emoji.clipboard; Emoji.speech].

(** [for i, line in enumerate(lines)] from index [i] on, with the current
    [skip_next_lines]; [total] is [len(lines)], and [S i =? total] is
    [i == len(lines) - 1].  Returns the lines appended to [clean_lines]. *)
Fixpoint clean_from (lines : list pystr) (i total : nat)
    (skip_next_lines : bool) : list pystr :=
  match lines with
  | [] => []
  | line :: rest =>
      let line_stripped := strip line in
      if starts_listing line_stripped
      then clean_from rest (S i) total true
      else if has_property_emoji line
      then clean_from rest (S i) total skip_next_lines
      else if skip_next_lines
      then clean_from rest (S i) total
             (if bool_decide (line_stripped = []) || (S i =? total)%nat
              then false else true)
      else line :: clean_from rest (S i) total skip_next_lines
  end.

Definition clean_lines (answer : pystr) : list pystr :=
  let lines := split 10 answer in
  clean_from lines 0 (length lines) false.

Definition generic_message (count : nat) : pystr :=
  py "✅ Encontré " ++ str_of_nat count
  ++ py " propiedades que coinciden con tu búsqueda. Te las muestro abajo:".

Definition see_below_suffix (count : nat) : pystr :=
  [10; 10] ++ py "📊 **Encontré " ++ str_of_nat count
  ++ py " propiedades** - Te las muestro en detalle abajo 👇".

Section Shaper.
Context `{StrLower}.

(** Lines 227 to 266 of [chat], entered when [results] is not empty;
    [count] is [len(results)]. *)
Definition clean_response (answer : pystr) (count : nat) : pystr :=
  let answer := strip (join [10] (clean_lines answer)) in
  if bool_decide (answer = []) || (length answer <? 20)%nat
  then generic_message count
  else if negb (contains (py "propiedad") (str_lower answer))
          && negb (contains (py "encontré") (str_lower answer))
  then answer ++ see_below_suffix count
  else answer.
End Shaper.

(** ** The chat handlers *)

(** The body of a successful chat reply. *)
Record chat_body {record : Type} := ChatBody {
  response : pystr;
  results_count : option nat;
  search_performed : bool;
  propiedades : option (list record)
}.
Arguments chat_body : clear implicits.

(** What the client receives: the body with status 200, or an error
    status with its message ([None] for a message the framework writes). *)
Inductive http {record : Type} :=
| Ok200 (body : chat_body record)
| HttpError (status : nat) (detail : option pystr).
Arguments http : clear implicits.

(** A key of a JSON object: missing, [null], or holding a value. *)
Inductive jfield (A : Type) := Missing | Null | Value (a : A).
Arguments Missing {A}.
Arguments Null {A}.
Arguments Value {A}.

(** [data.get(key, fallback)] *)
Definition get_or {A} (f : jfield A) (fallback : A) : option A :=
  match f with
  | Missing => Some fallback
  | Null => None
  | Value a => Some a
  end.

(** The JSON object posted to [/api/chat] of [main.py]. *)
Record flask_data := {
  d_message : jfield pystr;
  d_channel : jfield pystr;
  d_filters : jfield filter_dict;
  d_contexto_anterior : jfield filter_dict
}.

(** [ChatRequest] of [backend/main-ai.py]. *)
Record ChatRequest := {
  message : pystr;
  channel : pystr;
  filters : option filter_dict;
  contexto_anterior : option filter_dict;
  es_seguimiento : option bool
}.

(** [Field(..., min_length=1, max_length=1000)] on [message]. *)
Definition valid_request (request : ChatRequest) : bool :=
  (1 <=? length (message request))%nat
  && (length (message request) <=? 1000)%nat.

(** Truth value of an [Optional[Dict]]. *)
Definition dict_truthy (o : option filter_dict) : bool :=
  match o with
  | Some d => negb (bool_decide (d = ∅))
  | None => false
  end.

Definition palabras_bienvenida : list pystr :=
  [ py "hola"; py "hi"; py "hello"; py "buenas"; py "empezar"; py "inicio";
    py "ayuda" ].

Definition welcome_message : pystr :=
  join [10]
    [ py "¡Hola! 👋 Soy tu asistente de Dante Propiedades. ";
      py "";
      py "        Te ayudo a encontrar la propiedad ideal. Podés:";
      py "        • Usar los filtros a la izquierda para búsquedas específicas";
      py "        • Contarme directamente qué estás buscando";
      py "        • Preguntarme sobre propiedades que veas";
      py "";
      py "        ¿En qué tipo de propiedad estás interesado hoy?" ].

Definition empty_message_detail : pystr := py "El mensaje no puede estar vacío".
Definition error_detail : pystr := py "Ocurrió un error procesando tu consulta.".

(** [contexto_dinamico] of [backend/main-ai.py] *)
Definition contexto_dinamico : pystr :=
  join [10]
    [ py "Barrios disponibles: " ++ join (py ", ") BARRIOS ++ py ".";
      py "Tipos de propiedad: " ++ join (py ", ") TIPOS ++ py ".";
      py "Operaciones disponibles: " ++ join (py ", ") OPERACIONES ++ py "." ].

(** [contexto_historial] of [backend/main-ai.py] *)
Definition contexto_historial (historial : list pystr) : pystr :=
  match historial with
  | [] => []
  | _ => [10] ++ py "Historial reciente:" ++ [10]
         ++ join [10] ((λ m, py "- " ++ m) <$> historial)
  end.

Definition style_hint_for (channel : pystr) : pystr :=
  if bool_decide (channel = py "whatsapp")
  then py "Respondé de forma breve, directa y cálida como si fuera un mensaje de WhatsApp."
  else py "Respondé de forma explicativa, profesional y cálida como si fuera una consulta web.".

(** [ChatResponse(...)]: whether the response model accepts a list of
    result dictionaries as [List[PropertyResponse]]. *)
Class ResponseModel `{Engine} := accepts : list prop_dict → bool.

Section Handlers.
Context `{StrLower} `{Engine} `{!Provider} `{!ResponseModel}.

(** The two tables, the completion calls issued so far, and the
    counters. *)
Record world := World {
  properties : list row;
  logs : list turn;
  attempts : list attempt;
  metrics : Metrics
}.

Definition set_logs (l : list turn) (w : world) : world :=
  World (properties w) l (attempts w) (metrics w).
Definition set_attempts (a : list attempt) (w : world) : world :=
  World (properties w) (logs w) a (metrics w).
Definition count (f : Metrics → Metrics) (w : world) : world :=
  World (properties w) (logs w) (attempts w) (f (metrics w)).

(** [filters = filters_from_frontend.copy(); filters.update(detected_filters)] *)
Definition combined_filters (filters_from_frontend : filter_dict)
    (text_lower : pystr) : filter_dict :=
  detect_filters text_lower ∪ filters_from_frontend.

(** [len(results) if results else 0] *)
Definition count_of_results (results : option (list prop_dict)) : nat :=
  match results with
  | Some found => length found
  | None => 0
  end.

(** *** [chat] of [main.py] *)

(** The [try] block after the empty-message check; [None] is an
    exception ([.strip()] or [.copy()] on [None]). *)
Definition flask_chat_body (API_KEYS : list pystr) (d : flask_data)
    (message : pystr) (w : world) : option (chat_body prop_dict * world) :=
  let user_text := strip message in
  channel ← strip <$> get_or (d_channel d) (py "web");
  filters_from_frontend ← get_or (d_filters d) ∅;
  let text_lower := str_lower user_text in
  let filters := combined_filters filters_from_frontend text_lower in
  let results :=
    if bool_decide (filters ≠ ∅)
    then Some (query_properties (properties w) filters) else None in
  let search_performed := bool_decide (filters ≠ ∅) in
  let historial := get_historial_canal (logs w) channel in
  let prompt := build_prompt user_text results filters channel
                  (HintList historial) in
  let '(answer, made) :=
    call_gemini_with_rotation API_KEYS prompt (attempts w) in
  let w := set_attempts made w in
  let w := set_logs (log_conversation user_text answer channel
                       search_performed (count_of_results results) (logs w))
             w in
  Some (ChatBody prop_dict answer (length <$> results) search_performed
          results, w).

(** [if not data or not data.get('message'): return ..., 400], then the
    [try] block with its [except Exception: return ..., 500]. *)
Definition flask_chat (API_KEYS : list pystr) (data : option flask_data)
    (w : world) : http prop_dict * world :=
  match data with
  | None => (HttpError 400 (Some empty_message_detail), w)
  | Some d =>
      match d_message d with
      | Value ((_ :: _) as message) =>
          match flask_chat_body API_KEYS d message w with
          | Some (body, w') => (Ok200 body, w')
          | None => (HttpError 500 (Some error_detail), w)
          end
      | _ => (HttpError 400 (Some empty_message_detail), w)
      end
  end.

(** *** [chat] of [backend/main-ai.py] *)

Inductive exception :=
| HTTPException (status_code : nat) (detail : pystr)
| ValidationError.

(** [any(palabra in text_lower for palabra in palabras_bienvenida) and
    not contexto_anterior] *)
Definition es_saludo_inicial (text_lower : pystr)
    (contexto : option filter_dict) : bool :=
  existsb (λ palabra, contains palabra text_lower) palabras_bienvenida
  && negb (dict_truthy contexto).

(** The [try] block: what it raises or the response it builds, and the
    state it leaves. *)
Definition chat_try (API_KEYS : list pystr) (request : ChatRequest)
    (w : world) : (exception + chat_body prop_dict) * world :=
  let user_text := strip (message request) in
  if bool_decide (user_text = [])
  then (inl (HTTPException 400 empty_message_detail), w)
  else
    let channel := strip (channel request) in
    let filters_from_frontend :=
      if dict_truthy (filters request)
      then default ∅ (filters request) else ∅ in
    let text_lower := str_lower user_text in
    let filters := combined_filters filters_from_frontend text_lower in
    let search_performed := bool_decide (filters ≠ ∅) in
    let results :=
      if search_performed
      then Some (query_properties (properties w) filters) else None in
    let w := if search_performed then count increment_searches w else w in
    let historial := get_historial_canal (logs w) channel in
    let hint :=
      style_hint_for channel ++ [10] ++ contexto_dinamico ++ [10]
      ++ contexto_historial historial in
    let '(answer, w) :=
      if es_saludo_inicial text_lower (contexto_anterior request)
      then (welcome_message, w)
      else
        let prompt := build_prompt user_text results filters channel
                        (HintText hint) in
        let w := count increment_gemini_calls w in
        let '(answer, made) :=
          call_gemini_with_rotation API_KEYS prompt (attempts w) in
        let w := set_attempts made w in
        match results with
        | Some ((_ :: _) as found) =>
            (clean_response answer (length found), w)
        | _ => (answer, w)
        end in
    let w := set_logs (log_conversation user_text answer channel
                         search_performed (count_of_results results)
                         (logs w)) w in
    let w := count increment_success w in
    if match results with Some found => accepts found | None => true end
    then (inr (ChatBody prop_dict answer (length <$> results)
                 search_performed results), w)
    else (inl ValidationError, w).

(** [try: ... except Exception as e: metrics.increment_failures();
    raise HTTPException(status_code=500, ...)]: every exception of the
    block, an [HTTPException] included, leaves as a 500. *)
Definition chat (API_KEYS : list pystr) (request : ChatRequest)
    (w : world) : http prop_dict * world :=
  let w := count increment_requests w in
  match chat_try API_KEYS request w with
  | (inr body, w') => (Ok200 body, w')
  | (inl _, w') =>
      (HttpError 500 (Some error_detail), count increment_failures w')
  end.

(** [POST /chat]: the request model is validated before [chat] runs, and
    a request it rejects is answered with status 422. *)
Definition post_chat (API_KEYS : list pystr) (request : ChatRequest)
    (w : world) : http prop_dict * world :=
  if valid_request request then chat API_KEYS request w
  else (HttpError 422 None, w).
End Handlers.

(** * Vocabulary of the statements, and data for the examples *)

(** An attempt that yields a completion: at least one content part and a
    readable text.  Every other outcome (an exception, a response without
    parts) makes the gateway move on. *)
Definition completes `{Engine} (o : outcome) : bool :=
  match o with
  | Responds (S _) (Some _) => true
  | _ => false
  end.

(** The reply of the model in the listing example: two numbered lines, a
    blank line, and a closing sentence. *)
Definition listing_reply : pystr :=
  join [10]
    [ py "1. Casa en Palermo 🏠"; py "2. PH en Boedo 🏠"; py "";
      py "¡Mirá las opciones!" ].

(** A line that the clean-up must not let through. *)
Definition listing_line (line : pystr) : bool :=
  starts_listing (strip line) || has_property_emoji line.

(** An engine for the examples: it reads a text operand as a number when
    it is a plain run of decimal digits, and decodes no JSON text other
    than the empty list. *)
Definition example_engine : Engine :=
  {| numeric_of_text s := Qc_of_Z <$> py_int s;
     json := list pystr;
     json_loads s := if bool_decide (s = py "[]") then Some [] else None;
     json_empty_list := [] |}.

(** Providers for the examples: one whose every attempt raises, one that
    always answers with the same text. *)
Definition failing_provider : @Provider example_engine := λ _ _ _, Raises.
Definition answering_provider (text : pystr) : @Provider example_engine :=
  λ _ _ _, Responds 1 (Some text).

(** A response model that accepts every record. *)
Definition accept_all : @ResponseModel example_engine := λ _, true.

Definition three_keys : list pystr := [py "key-1"; py "key-2"; py "key-3"].

Definition example_row (id_ titulo_ barrio_ : string) (precio_ : Z)
    (ambientes_ : Z) (metros_ : Z) (operacion_ tipo_ : string) : row :=
  {| id_temporal := py id_; titulo := py titulo_; barrio := py barrio_;
     precio := Qc_of_Z precio_; ambientes := ambientes_;
     metros_cuadrados := Qc_of_Z metros_; descripcion := Some [];
     operacion := py operacion_; tipo := py tipo_;
     direccion := None; antiguedad := None; estado := None;
     orientacion := None; expensas := None; amenities := None;
     cochera := None; balcon := None; pileta := None;
     acepta_mascotas := None; aire_acondicionado := None;
     info_multimedia := None; documentos := Some (py "[]");
     videos := Some (py "[]"); fotos := Some (py "[]");
     moneda_precio := Some (py "USD"); moneda_expensas := Some (py "ARS");
     fecha_procesamiento := None |}.

Definition example_catalog : list row :=
  [ example_row "p1" "Casa en Palermo" "Palermo" 250000 4 120 "venta" "casa";
    example_row "p2" "PH en Boedo" "Boedo" 90000 3 70 "venta" "ph";
    example_row "p3" "Departamento en Palermo" "Palermo" 1200 2 45
      "alquiler" "departamento" ].

Definition no_metrics : Metrics := Build_Metrics 0 0 0 0 0.

Definition example_world : @world example_engine :=
  World example_catalog [] [] no_metrics.


(** A provider whose first attempt raises, whose second returns a response
    without content parts, and whose later ones return parts with no
    readable text. *)
Definition broken_provider : @Provider example_engine :=
  λ n _ _,
    match n with
    | O => Raises
    | S O => Responds 0 (Some (py "unused"))
    | _ => Responds 2 None
    end.

Definition example_prompt : @prompt example_engine :=
  GeneralPrompt (py "hola") false (HintText []).


(** What each filter key asks of a record: the column compared, the
    comparison, and the parameter made from the value.  [neighborhood] and
    [barrio] are substring matches on the neighbourhood, the price, room
    and area keys are inclusive bounds, [operacion] and [tipo] are exact
    matches. *)
Definition filter_meaning
    : list (pystr * (Sql.column * Sql.operator * (pyval → pyval))) :=
  [ (k_neighborhood, (Sql.c_barrio, Sql.LIKE, substring_pattern));
    (k_barrio, (Sql.c_barrio, Sql.LIKE, substring_pattern));
    (k_min_price, (Sql.c_precio, Sql.GE, id));
    (k_max_price, (Sql.c_precio, Sql.LE, id));
    (k_min_rooms, (Sql.c_ambientes, Sql.GE, id));
    (k_operacion, (Sql.c_operacion, Sql.EQ, id));
    (k_tipo, (Sql.c_tipo, Sql.EQ, id));
    (k_min_sqm, (Sql.c_metros_cuadrados, Sql.GE, id));
    (k_max_sqm, (Sql.c_metros_cuadrados, Sql.LE, id)) ].

(** A record meets the filter of value [v] under a key of the given
    meaning; a value that cannot be bound is met by no record. *)
Definition meets `{Engine} (r : row) (v : pyval)
    (meaning : Sql.column * Sql.operator * (pyval → pyval)) : bool :=
  match Sql.bind (meaning.2 v) with
  | Some bound => Sql.holds r meaning.1.1 meaning.1.2 bound
  | None => false
  end.

(** A record is selected when it meets every filter that is listed with a
    true value. *)
Definition selected `{Engine} (filters : filter_dict) (r : row) : bool :=
  forallb
    (λ entry : pystr * (Sql.column * Sql.operator * (pyval → pyval)),
       match active filters entry.1 with
       | Some v => meets r v entry.2
       | None => true
       end)
    filter_meaning.


(** The filter dictionary of the zero-bound example. *)
Definition max_price_zero : filter_dict := {[ k_max_price := PInt 0 ]}.


(** The greeting posted to [/api/chat] of [main.py] with nothing else, and
    a [ChatRequest] of [backend/main-ai.py] with the given message and
    every other field at its default. *)
Definition hola_data : flask_data :=
  {| d_message := Value (py "hola"); d_channel := Missing;
     d_filters := Missing; d_contexto_anterior := Missing |}.

Definition plain_request (text : string) : ChatRequest :=
  {| message := py text; channel := py "web"; filters := None;
     contexto_anterior := None; es_seguimiento := Some false |}.

(** The merged filters of a request, for each handler. *)
Definition flask_merged_filters `{StrLower} (d : flask_data) : filter_dict :=
  combined_filters
    (match d_filters d with Value f => f | _ => ∅ end)
    (str_lower (strip (match d_message d with Value m => m | _ => [] end))).

Definition merged_filters `{StrLower} (request : ChatRequest) : filter_dict :=
  combined_filters (default ∅ (filters request))
    (str_lower (strip (message request))).

(** The three result fields of a reply agree with each other and with the
    merged filters. *)
Definition consistent {record} (body : chat_body record)
    (merged : filter_dict) : Prop :=
  (search_performed body = true ↔ merged ≠ ∅)
  ∧ (search_performed body = true →
       ∃ records, propiedades body = Some records
                  ∧ results_count body = Some (length records))
  ∧ (search_performed body = false →
       propiedades body = None ∧ results_count body = None).

(** A status of the client-error class. *)
Definition client_error (status : nat) : bool :=
  (400 <=? status)%nat && (status <? 500)%nat.

Definition greeting_reply : pystr := py "¡Hola! ¿En qué puedo ayudarte hoy?".


(** * More of the code, and data for further examples *)

(** A provider whose first attempt raises and whose later ones answer with
    a text padded with white space. *)
Definition recovering_provider : @Provider example_engine :=
  λ n _ _,
    match n with
    | O => Raises
    | _ => Responds 1 (Some (py "  Tengo tres opciones para vos.  "))
    end.

(** [get_last_bot_response(canal)]: the reply of the most recent turn of
    the channel, [None] when the channel has none. *)
Definition get_last_bot_response (logs : list turn) (canal : pystr)
    : option pystr :=
  match filter (λ t, log_channel t = canal) (rev logs) with
  | result :: _ => Some (log_bot_response result)
  | [] => None
  end.

(** The three variables read when [logic/gemini_client.py] is loaded. *)
Definition key_names : list pystr :=
  [py "GEMINI_API_KEY_1"; py "GEMINI_API_KEY_2"; py "GEMINI_API_KEY_3"].


(** The code points of the five emoji that mark a line of a listing. *)
Definition property_emoji_points : list N :=
  hd 0 <$> [Emoji.house; Emoji.pin; Emoji.money; Emoji.clipboard;
            Emoji.speech].

(** A reply without listing, for the clean-up example. *)
Definition plain_reply : pystr :=
  py " Tengo dos propiedades que te pueden interesar. ".


(** The range of a 64-bit signed integer, outside of which SQLite binds
    no Python [int]. *)
Definition in_int64 (n : Z) : Prop := (- 2 ^ 63 ≤ n < 2 ^ 63)%Z.

(** A text that [LIKE] reads literally: it holds neither [%] nor [_]. *)
Definition wildcard_free (s : pystr) : Prop :=
  Forall (λ c, c ≠ 37 ∧ c ≠ 95) s.

(** [sub] occurs in [text] when the case of the ASCII letters is
    disregarded. *)
Definition occurs_ignoring_ascii_case (sub text : pystr) : Prop :=
  occurs_in (Sql.fold_ascii <$> sub) (Sql.fold_ascii <$> text).


(** Filter dictionaries for the examples of the query. *)
Definition under_100000 : filter_dict := {[ k_max_price := PInt 100000 ]}.
Definition three_rooms : filter_dict := {[ k_min_rooms := PInt 3 ]}.
Definition only_ph : filter_dict := {[ k_tipo := PStr (py "ph") ]}.


(** What an entry of the extractor's result can be: a gazetteer name in
    lower case under [neighborhood], a type or operation word that occurs
    in the text under [tipo] or [operacion], and a natural number under
    the two price keys, [min_rooms] and [min_sqm]. *)
Definition detected_entry `{StrLower} (text_lower : pystr) (k : pystr)
    (v : pyval) : Prop :=
  (k = k_neighborhood
   ∧ ∃ barrio, barrio ∈ BARRIOS ∧ v = PStr (str_lower barrio)
               ∧ occurs_in (str_lower barrio) (lower_latin <$> text_lower))
  ∨ (k = k_tipo
     ∧ ∃ tipo, tipo ∈ TIPOS ∧ v = PStr (str_lower tipo)
               ∧ occurs_in (str_lower tipo) text_lower)
  ∨ (k = k_operacion
     ∧ ∃ operacion, operacion ∈ OPERACIONES ∧ v = PStr (str_lower operacion)
                    ∧ occurs_in (str_lower operacion) text_lower)
  ∨ (k ∈ [k_max_price; k_min_price; k_min_rooms; k_min_sqm]
     ∧ ∃ n, v = PInt n ∧ (0 ≤ n)%Z).


(** ** [get_filter_options] of [main.py] *)

(** The order [sorted] puts two [str] in: lexicographic on code points. *)
Fixpoint str_leb (a b : pystr) : bool :=
  match a, b with
  | [], _ => true
  | _ :: _, [] => false
  | x :: a', y :: b' => (x <? y) || ((x =? y) && str_leb a' b')
  end.

Definition str_le (a b : pystr) : Prop := str_leb a b = true.

#[export] Instance str_le_dec : RelDecision str_le :=
  λ a b, decide (str_leb a b = true).

(** [sorted(values)] on a list of [str]. *)
Definition sorted (values : list pystr) : list pystr :=
  merge_sort str_le values.

(** [if value and value not in seen: seen.append(value)], over the
    values in order. *)
Definition distinct_values (values : list pystr) : list pystr :=
  fold_left
    (λ seen value,
       if str_truthy (Some value) && negb (bool_decide (value ∈ seen))
       then seen ++ [value] else seen)
    values [].

(** The dictionary [get_filter_options] returns. *)
Record filter_options := {
  barrios : list pystr;
  tipos : list pystr;
  total : nat
}.

Definition get_filter_options `{Engine} (db : list row) : filter_options :=
  let properties := query_properties db ∅ in
  {| barrios := sorted (distinct_values (barrio <$> properties));
     tipos := sorted (distinct_values (tipo <$> properties));
     total := length properties |}.

(** * Properties *)

Ltac by_computation :=
  match goal with
  | |- ?P => apply (bool_decide_unpack P); vm_compute; exact I
  end.

Ltac key_ne := let E := fresh in intros E; vm_compute in E; discriminate E.

(** ** Substring tests *)

Lemma starts_with_spec (sub text : pystr) :
  starts_with sub text = true ↔ ∃ rest, text = sub ++ rest.
Proof.
  revert text. induction sub as [|a sub IH]; intros text; simpl.
  - split; [eauto | done].
  - destruct text as [|b text].
    + split; [done | intros [rest Hrest]; discriminate].
    + rewrite andb_true_iff, N.eqb_eq, IH. split.
      * intros [-> [rest ->]]. by exists rest.
      * intros [rest Hrest]. injection Hrest as -> ->. eauto.
Qed.

Lemma contains_spec (sub text : pystr) :
  contains sub text = true ↔ occurs_in sub text.
Proof.
  unfold occurs_in. induction text as [|c text IH]; simpl.
  - rewrite orb_false_r, starts_with_spec. split.
    + intros [rest Hrest]. by exists [], rest.
    + intros (before & after & Heq).
      destruct before; [by exists after | discriminate].
  - rewrite orb_true_iff, starts_with_spec, IH. split.
    + intros [[rest Hrest] | (before & after & ->)].
      * by exists [], rest.
      * by exists (c :: before), after.
    + intros ([|c' before] & after & Heq).
      * left. by exists after.
      * right. injection Heq as -> ->. by exists before, after.
Qed.

Lemma contains_false (sub text : pystr) :
  contains sub text = false ↔ ¬ occurs_in sub text.
Proof. rewrite <- contains_spec. by destruct (contains sub text). Qed.

Lemma occurs_in_fmap (f : N → N) (sub text : pystr) :
  occurs_in sub text → occurs_in (f <$> sub) (f <$> text).
Proof.
  intros (before & after & ->). exists (f <$> before), (f <$> after).
  by rewrite !fmap_app.
Qed.

Lemma occurs_in_trans (a b c : pystr) :
  occurs_in a b → occurs_in b c → occurs_in a c.
Proof.
  intros (p1 & q1 & ->) (p2 & q2 & ->).
  exists (p2 ++ p1), (q1 ++ q2). by rewrite <- !app_assoc.
Qed.


(** ** Merging the filters of the form with the detected ones *)

Section Merge.
Context `{StrLower}.

(** C1 (as the code has it).  Both chat handlers build the merged filters
    with [dict.update]: every key the extractor detects takes the detected
    value, and a filter of the form survives only under a key the
    extractor did not set. *)
Theorem merge_precedence (explicit : filter_dict) (text_lower k : pystr) :
  combined_filters explicit text_lower !! k =
    match detect_filters text_lower !! k with
    | Some detected => Some detected
    | None => explicit !! k
    end.
Proof.
  unfold combined_filters. rewrite lookup_union.
  destruct (detect_filters text_lower !! k), (explicit !! k); reflexivity.
Qed.

End Merge.

Section MergeExample.
#[local] Existing Instance latin_lower.

(** C1, the claim as stated, fails: with the form filter [tipo = casa] and
    the message "Departamento en Palermo" the merged set is
    [{tipo: departamento, neighborhood: palermo}]; the value of the form
    under [tipo] is replaced by the detected one. *)
Lemma explicit_filter_overridden :
  combined_filters {[ k_tipo := PStr (py "casa") ]}
    (str_lower (strip (py "Departamento en Palermo")))
  = {[ k_tipo := PStr (py "departamento");
       k_neighborhood := PStr (py "palermo") ]}
  ∧ ¬ (∀ (explicit : filter_dict) (user_text k : pystr) (v : pyval),
         explicit !! k = Some v →
         combined_filters explicit (str_lower (strip user_text)) !! k
         = Some v).
Proof.
  split.
  - vm_compute. reflexivity.
  - intros Hclaim.
    specialize (Hclaim {[ k_tipo := PStr (py "casa") ]}
                  (py "Departamento en Palermo") k_tipo (PStr (py "casa"))
                  eq_refl).
    vm_compute in Hclaim. discriminate.
Qed.

End MergeExample.

(** ** The response clean-up on the listing example *)

Section ListingExample.
Context `{StrLower}.

(** C2 (as the code has it).  On the listing reply with two records the
    loop drops both numbered lines and the blank line and keeps only the
    closing sentence; that sentence is 19 characters long, under the
    threshold of 20, so the reply returned is the generic confirmation for
    two properties, in which no line is a listing line. *)
Theorem listing_example_cleaned :
  clean_lines listing_reply = [py "¡Mirá las opciones!"]
  ∧ length (py "¡Mirá las opciones!") = 19%nat
  ∧ clean_response listing_reply 2 = generic_message 2
  ∧ Forall (λ line, listing_line line = false)
      (split 10 (clean_response listing_reply 2)).
Proof.
  assert (Hclean : clean_response listing_reply 2 = generic_message 2)
    by (vm_compute; reflexivity).
  split; [vm_compute; reflexivity|].
  split; [vm_compute; reflexivity|].
  split; [exact Hclean|].
  rewrite Hclean. by_computation.
Qed.

End ListingExample.

(** C2, the claim as stated, fails: the text returned for the listing
    example is the generic confirmation, which does not begin with the
    closing sentence of the reply. *)
Lemma listing_example_sentence_replaced :
  clean_response (H := latin_lower) listing_reply 2
  = py "✅ Encontré 2 propiedades que coinciden con tu búsqueda. Te las muestro abajo:"
  ∧ ¬ ∃ suffix,
        clean_response (H := latin_lower) listing_reply 2
        = py "¡Mirá las opciones!" ++ suffix.
Proof.
  split; [vm_compute; reflexivity|].
  intros [suffix Hsuffix]. vm_compute in Hsuffix. discriminate.
Qed.

(** ** The gateway *)

Section GatewayFacts.
Context `{Engine} `{!Provider}.

Lemma rotate_all_fail (keys : list pystr) (p : prompt) (made : list attempt) :
  (∀ (i : nat) (key : pystr),
     keys !! i = Some key →
     completes (generate_content (length made + i) key p) = false) →
  rotate keys p made
  = (get_fallback_response, made ++ ((λ key, (key, p)) <$> keys)).
Proof.
  revert made. induction keys as [|key rest IH]; intros made Hfail; simpl.
  - by rewrite app_nil_r.
  - assert (Hrest :
      rotate rest p (made ++ [(key, p)])
      = (get_fallback_response,
         (made ++ [(key, p)]) ++ ((λ key, (key, p)) <$> rest))).
    { apply IH. intros i key' Hkey'.
      rewrite length_app. simpl.
      replace (length made + 1 + i)%nat with (length made + S i)%nat by lia.
      by apply Hfail. }
    rewrite <- app_assoc in Hrest. simpl in Hrest.
    specialize (Hfail 0%nat key eq_refl).
    rewrite Nat.add_0_r in Hfail.
    destruct (generate_content (length made) key p) as [|[|parts] [text|]];
      simpl in Hfail; done.
Qed.

(** C3.  When every configured key fails (the attempt raises, or returns a
    response without content parts, or one whose text cannot be read), and
    in particular when no key is configured, the gateway returns the
    fallback text itself, and the attempts it performed are exactly one per
    key, in the order of [API_KEYS], each with the caller's prompt. *)
Theorem gateway_falls_back (API_KEYS : list pystr) (p : prompt)
    (made : list attempt) :
  (∀ (i : nat) (key : pystr),
     API_KEYS !! i = Some key →
     completes (generate_content (length made + i) key p) = false) →
  call_gemini_with_rotation API_KEYS p made
  = (get_fallback_response, made ++ ((λ key, (key, p)) <$> API_KEYS))
  ∧ length (call_gemini_with_rotation API_KEYS p made).2
    = (length made + length API_KEYS)%nat.
Proof.
  intros Hfail.
  assert (Hcall :
    call_gemini_with_rotation API_KEYS p made
    = (get_fallback_response, made ++ ((λ key, (key, p)) <$> API_KEYS))).
  { destruct API_KEYS as [|key rest].
    - simpl. by rewrite app_nil_r.
    - by apply rotate_all_fail. }
  split; [exact Hcall|].
  rewrite Hcall. simpl. by rewrite length_app, length_fmap.
Qed.

End GatewayFacts.

Section GatewayExample.
#[local] Existing Instance example_engine.
#[local] Existing Instance broken_provider.

(** C3 at work: three keys, the first attempt raising, the second without
    parts, the third without readable text. *)
Lemma gateway_falls_back_witness :
  call_gemini_with_rotation three_keys example_prompt []
  = (get_fallback_response,
     [] ++ ((λ key, (key, example_prompt)) <$> three_keys))
  ∧ length (call_gemini_with_rotation three_keys example_prompt []).2
    = (length (@nil attempt) + length three_keys)%nat.
Proof.
  apply gateway_falls_back.
  intros [|[|[|i]]] key Hkey; reflexivity.
Defined.

End GatewayExample.

(** ** The matcher *)

Lemma greedy_spec {R} (a : Re.atom) (s : pystr) (k : pystr → option R) (r : R) :
  Re.greedy a s k = Some r →
  ∃ run rest,
    s = run ++ rest ∧ Forall (λ c, Re.atom_matches a c = true) run
    ∧ k rest = Some r.
Proof.
  induction s as [|c s IH]; simpl.
  - intros Hk. by exists [], [].
  - destruct (Re.atom_matches a c) eqn:Hc.
    + destruct (Re.greedy a s k) as [r'|] eqn:Hgreedy.
      * intros [= ->]. destruct (IH eq_refl) as (run & rest & -> & Hrun & Hk).
        exists (c :: run), rest. by repeat split; [constructor|].
      * intros Hk. by exists [], (c :: s).
    + intros Hk. by exists [], (c :: s).
Qed.

Lemma strip_prefix_spec (l s s' : pystr) :
  Re.strip_prefix l s = Some s' → s = l ++ s'.
Proof.
  revert s. induction l as [|a l IH]; intros [|b s]; simpl; try done.
  - by intros [= ->].
  - by intros [= ->].
  - destruct (a =? b) eqn:Hab; [|done].
    apply N.eqb_eq in Hab as ->. intros Hrest. by rewrite (IH _ Hrest).
Qed.

Lemma search_spec (r : Re.regex) (text : pystr) (m : Re.captures) :
  Re.search r text = Some m →
  ∃ before s,
    text = before ++ s ∧ Re.rmatch r s [] (λ _ m', Some m') = Some m.
Proof.
  induction text as [|c text IH]; simpl.
  - destruct (Re.rmatch r [] [] _) as [m'|] eqn:Hm; [|done].
    intros [= ->]. by exists [], [].
  - destruct (Re.rmatch r (c :: text) [] _) as [m'|] eqn:Hm.
    + intros [= ->]. by exists [], (c :: text).
    + intros Hsearch. destruct (IH Hsearch) as (before & s & -> & Hs).
      by exists (c :: before), s.
Qed.

Lemma take_run (run rest : pystr) :
  take (length (run ++ rest) - length rest) (run ++ rest) = run.
Proof.
  rewrite length_app.
  replace (length run + length rest - length rest)%nat with (length run) by lia.
  by rewrite take_app_length.
Qed.

(** A captured group [(a+)] whose continuation hands back the captures it
    receives binds a non-empty run of characters that [a] accepts. *)
Lemma group_plus_spec (n : nat) (a : Re.atom) (s : pystr)
    (k : pystr → Re.captures → option Re.captures) (m : Re.captures) :
  (∀ s' m' res, k s' m' = Some res → res = m') →
  Re.rmatch (Re.Group n (Re.Plus a)) s [] k = Some m →
  ∃ run rest,
    s = run ++ rest ∧ run ≠ []
    ∧ Forall (λ c, Re.atom_matches a c = true) run ∧ m = [(n, run)].
Proof.
  intros Hk. simpl. destruct s as [|c s]; [done|].
  destruct (Re.atom_matches a c) eqn:Hc; [|done].
  intros Hgreedy. apply greedy_spec in Hgreedy
    as (run & rest & -> & Hrun & Hres).
  apply Hk in Hres as ->.
  exists (c :: run), rest. repeat split; [done|by constructor|].
  do 2 f_equal. exact (take_run (c :: run) rest).
Qed.

Lemma barrio_pattern_capture (pattern : Re.regex) (text : pystr)
    (m : Re.captures) :
  pattern ∈ Patterns.barrio_patterns →
  Re.search pattern text = Some m →
  occurs_in (Re.group 1 m) text
  ∧ Forall (λ c, c < 256 ∨ isspace c = true) (Re.group 1 m).
Proof.
  intros Hpattern Hsearch.
  apply search_spec in Hsearch as (before & s & -> & Hmatch).
  assert (Hcapture : ∃ literal run rest,
            s = literal ++ run ++ rest
            ∧ Forall (λ c, Re.atom_matches
                       (Re.Set_ [ Re.IRange 97 122; Re.IRange 65 90;
                                  Re.IChar 225; Re.IChar 233; Re.IChar 237;
                                  Re.IChar 243; Re.IChar 250; Re.IChar 241;
                                  Re.ISpace ]) c = true) run
            ∧ m = [(1%nat, run)]).
  { unfold Patterns.barrio_patterns in Hpattern.
    repeat (apply elem_of_cons in Hpattern as [->|Hpattern]);
      [..|by apply elem_of_nil in Hpattern];
      cbn [Patterns.cat Re.rmatch] in Hmatch;
      match type of Hmatch with
      | match Re.strip_prefix ?l s with _ => _ end = _ =>
          destruct (Re.strip_prefix l s) as [s'|] eqn:Hprefix; [|done];
          apply strip_prefix_spec in Hprefix as ->;
          apply (group_plus_spec 1) in Hmatch
            as (run & rest & -> & _ & Hrun & ->);
          [by exists l, run, rest|]
      end.
    all: intros s1 m1 res; simpl; repeat case_match; congruence. }
  destruct Hcapture as (literal & run & rest & -> & Hrun & ->).
  split.
  - exists (before ++ literal), rest. by rewrite <- !app_assoc.
  - unfold Re.group, Re.bound. simpl.
    eapply Forall_impl; [exact Hrun|].
    intros c Hc.
    cbn [Re.atom_matches existsb Re.item_matches] in Hc.
    destruct (isspace c); [by right|]. left.
    repeat (apply orb_true_iff in Hc as [Hc|Hc]);
      try (apply andb_true_iff in Hc as [_ Hc]; apply N.leb_le in Hc);
      try (apply N.eqb_eq in Hc);
      try lia; discriminate Hc.
Qed.

(** ** Stripping and lower-casing *)

Lemma lstrip_suffix (s : pystr) : ∃ dropped, s = dropped ++ lstrip s.
Proof.
  induction s as [|c s [dropped IH]]; simpl.
  - by exists [].
  - destruct (isspace c).
    + exists (c :: dropped). simpl. by rewrite <- IH.
    + by exists [].
Qed.

Lemma strip_occurs (s : pystr) : occurs_in (strip s) s.
Proof.
  unfold strip, rstrip.
  destruct (lstrip_suffix s) as [front Hfront].
  destruct (lstrip_suffix (rev (lstrip s))) as [back Hback].
  exists front, (rev back).
  rewrite <- rev_app_distr, <- Hback, rev_involutive. exact Hfront.
Qed.

Lemma Forall_occurs {P : N → Prop} (sub text : pystr) :
  occurs_in sub text → Forall P text → Forall P sub.
Proof.
  intros (before & after & ->) Hall.
  apply Forall_app in Hall as [_ Hall]. by apply Forall_app in Hall as [Hall _].
Qed.

Lemma lower_latin_idempotent (c : N) :
  lower_latin (lower_latin c) = lower_latin c.
Proof.
  unfold lower_latin.
  destruct (((65 <=? c) && (c <=? 90))
            || ((192 <=? c) && (c <=? 222) && negb (c =? 215))) eqn:Hupper;
    [|by rewrite Hupper].
  assert (Hrange : 65 ≤ c ≤ 90 ∨ 192 ≤ c ≤ 222).
  { apply orb_true_iff in Hupper as [Hupper|Hupper].
    - apply andb_true_iff in Hupper as [?%N.leb_le ?%N.leb_le]. lia.
    - apply andb_true_iff in Hupper as [Hupper _].
      apply andb_true_iff in Hupper as [?%N.leb_le ?%N.leb_le]. lia. }
  assert (Hlow : ((65 <=? c + 32) && (c + 32 <=? 90)
                  || (192 <=? c + 32) && (c + 32 <=? 222)
                     && negb (c + 32 =? 215)) = false).
  { apply orb_false_iff. split; apply andb_false_iff.
    - right. apply N.leb_gt. lia.
    - left. apply andb_false_iff.
      destruct Hrange; [left|right]; apply N.leb_gt; lia. }
  by rewrite Hlow.
Qed.

Lemma gazetteer_is_latin :
  Forall (Forall (λ c, c < 256 ∨ isspace c = true)) (BARRIOS ++ TIPOS ++ OPERACIONES).
Proof.
  by_computation.
Qed.

Section Vocabulary.
Context `{StrLower}.

Lemma str_lower_barrio (barrio : pystr) :
  barrio ∈ BARRIOS → str_lower barrio = lower_latin <$> barrio.
Proof.
  intros Hin. apply str_lower_latin.
  pose proof gazetteer_is_latin as Hall.
  apply Forall_app in Hall as [Hall _].
  by apply (proj1 (Forall_forall _ _) Hall).
Qed.

Lemma barrio_not_empty (barrio : pystr) :
  barrio ∈ BARRIOS → str_truthy (Some (str_lower barrio)) = true.
Proof.
  intros Hin. rewrite (str_lower_barrio _ Hin).
  unfold BARRIOS in Hin.
  repeat (apply elem_of_cons in Hin as [->|Hin]); try reflexivity.
  by apply elem_of_nil in Hin.
Qed.

End Vocabulary.


Lemma first_in_none (vocabulary : list pystr) (text : pystr) :
  (∀ word, word ∈ vocabulary → ¬ occurs_in word text) →
  first_in vocabulary text = None.
Proof.
  unfold first_in. induction vocabulary as [|w vocabulary IH]; intros Hnone.
  - reflexivity.
  - simpl. rewrite (proj2 (contains_false w text)).
    + apply IH. intros word Hin. apply Hnone. by right.
    + apply Hnone. by left.
Qed.

(** ** The extractor *)

Section ExtractorFacts.
Context `{StrLower}.



End ExtractorFacts.


Example neighborhood_detected_boedo :
  detect_filters (H := latin_lower)
    (py "busco casa en palermo o en boedo, hasta 3 ambientes")
    !! k_neighborhood
  = Some (PStr (py "boedo")).
Proof. vm_compute. reflexivity. Qed.

Section LowerIndependence.
Context `{StrLower}.

Lemma str_lower_vocabulary (words : list pystr) :
  words ⊆ BARRIOS ++ TIPOS ++ OPERACIONES →
  str_lower <$> words = (fmap lower_latin) <$> words.
Proof.
  intros Hsub. apply list_fmap_ext. intros i word Hword.
  apply str_lower_latin.
  apply (proj1 (Forall_forall _ _) gazetteer_is_latin).
  apply Hsub. by eapply list_elem_of_lookup_2.
Qed.

Lemma barrio_from_patterns_latin (patterns : list Re.regex)
    (barrios_disponibles : list pystr) (text_lower : pystr) :
  patterns ⊆ Patterns.barrio_patterns →
  barrio_from_patterns patterns barrios_disponibles text_lower
  = barrio_from_patterns (H := latin_lower) patterns barrios_disponibles
      text_lower.
Proof.
  intros Hsub. induction patterns as [|pattern rest IH]; [done|].
  cbn [barrio_from_patterns].
  rewrite IH by (intros p Hp; apply Hsub; by right).
  destruct (Re.search pattern text_lower) as [m|] eqn:Hsearch; [|done].
  apply barrio_pattern_capture in Hsearch as [_ Hlatin];
    [|apply Hsub; by left].
  by rewrite str_lower_latin
    by (eapply Forall_occurs; [apply strip_occurs|exact Hlatin]).
Qed.

(** The extractor only lower-cases its own vocabulary and spans made of
    Latin letters and white space, so its result does not depend on what
    [str.lower] does elsewhere. *)
Lemma detect_filters_latin (text_lower : pystr) :
  detect_filters text_lower = detect_filters (H := latin_lower) text_lower.
Proof.
  unfold detect_filters.
  rewrite (str_lower_vocabulary BARRIOS)
    by (intros w Hw; apply elem_of_app; by left).
  rewrite (str_lower_vocabulary TIPOS)
    by (intros w Hw; apply elem_of_app; right; apply elem_of_app; by left).
  rewrite (str_lower_vocabulary OPERACIONES)
    by (intros w Hw; apply elem_of_app; right; apply elem_of_app; by right).
  by rewrite barrio_from_patterns_latin.
Qed.

End LowerIndependence.

Section NothingDetected.
Context `{StrLower}.

Lemma barrio_from_patterns_none (patterns : list Re.regex) (text_lower : pystr) :
  patterns ⊆ Patterns.barrio_patterns →
  (∀ barrio, barrio ∈ BARRIOS →
     ¬ occurs_in (str_lower barrio) (lower_latin <$> text_lower)) →
  barrio_from_patterns patterns (str_lower <$> BARRIOS) text_lower = None.
Proof.
  intros Hsub Hnone. induction patterns as [|pattern rest IH]; [done|].
  cbn [barrio_from_patterns].
  rewrite IH by (intros p Hp; apply Hsub; by right).
  destruct (Re.search pattern text_lower) as [m|] eqn:Hsearch; [|done].
  apply barrio_pattern_capture in Hsearch as [Hoccurs Hlatin];
    [|apply Hsub; by left].
  rewrite bool_decide_eq_false_2; [done|].
  intros (barrio & Hlower & Hin)%list_elem_of_fmap.
  apply (Hnone barrio Hin). rewrite <- Hlower.
  rewrite str_lower_latin
    by (eapply Forall_occurs; [apply strip_occurs|exact Hlatin]).
  apply occurs_in_fmap.
  eapply occurs_in_trans; [apply strip_occurs|exact Hoccurs].
Qed.

Lemma max_price_from_none (patterns : list Re.regex) (text_lower : pystr) :
  (∀ pattern, pattern ∈ patterns → Re.search pattern text_lower = None) →
  max_price_from patterns text_lower = None.
Proof.
  induction patterns as [|pattern rest IH]; intros Hnone; [done|].
  simpl. rewrite (Hnone pattern) by (by left).
  apply IH. intros p Hp. apply Hnone. by right.
Qed.

(** C6.  When no category matches, the extractor returns the empty
    dictionary: no gazetteer name occurs in the text (names are compared
    without regard to the case of Latin letters, since the prepositional
    patterns lower-case what they capture), no type or operation word
    occurs, and none of the price, minimum-price, rooms and square-metre
    patterns is found. *)
Theorem nothing_detected (text_lower : pystr) :
  (∀ barrio, barrio ∈ BARRIOS →
     ¬ occurs_in (str_lower barrio) (lower_latin <$> text_lower)) →
  (∀ tipo, tipo ∈ TIPOS → ¬ occurs_in (str_lower tipo) text_lower) →
  (∀ operacion, operacion ∈ OPERACIONES →
     ¬ occurs_in (str_lower operacion) text_lower) →
  (∀ pattern, pattern ∈ Patterns.precio_patterns →
     Re.search pattern text_lower = None) →
  Re.search Patterns.min_price_pattern text_lower = None →
  Re.search (Patterns.count_of "amb") text_lower = None →
  Re.search (Patterns.count_of "ambiente") text_lower = None →
  Re.search (Patterns.count_of "m2") text_lower = None →
  Re.search (Patterns.count_of "metros") text_lower = None →
  detect_filters text_lower = ∅.
Proof.
  intros Hbarrio Htipo Hoperacion Hprecio Hmin Hamb Hambiente Hm2 Hmetros.
  assert (Hdirect : first_in (str_lower <$> BARRIOS) text_lower = None).
  { apply first_in_none.
    intros word (barrio & -> & Hin)%list_elem_of_fmap Hoccurs.
    apply (Hbarrio barrio Hin).
    apply (occurs_in_fmap lower_latin) in Hoccurs.
    rewrite (str_lower_barrio _ Hin) in Hoccurs |- *.
    rewrite <- list_fmap_compose in Hoccurs.
    erewrite (list_fmap_ext _ lower_latin) in Hoccurs; [exact Hoccurs|].
    intros i c _. apply lower_latin_idempotent. }
  assert (Htipos : first_in (str_lower <$> TIPOS) text_lower = None).
  { apply first_in_none.
    intros word (tipo & -> & Hin)%list_elem_of_fmap. by apply Htipo. }
  assert (Hoperaciones :
            first_in (str_lower <$> OPERACIONES) text_lower = None).
  { apply first_in_none.
    intros word (operacion & -> & Hin)%list_elem_of_fmap.
    by apply Hoperacion. }
  unfold detect_filters.
  rewrite Hdirect, Htipos, Hoperaciones.
  rewrite (barrio_from_patterns_none _ _ (reflexivity _) Hbarrio).
  rewrite (max_price_from_none _ _ Hprecio).
  rewrite Hmin, Hamb, Hambiente, Hm2, Hmetros.
  reflexivity.
Qed.

End NothingDetected.

(** C6 at work, on a message that names no neighbourhood, type, operation,
    price, room count or area. *)
Lemma nothing_detected_witness :
  detect_filters (H := latin_lower)
    (py "buenos días, quisiera hacer una consulta de horarios")
  = ∅.
Proof.
  apply (nothing_detected (H := latin_lower)).
  - intros barrio Hin. apply contains_false. revert barrio Hin.
    apply Forall_forall. by_computation.
  - intros tipo Hin. apply contains_false. revert tipo Hin.
    apply Forall_forall. by_computation.
  - intros operacion Hin. apply contains_false. revert operacion Hin.
    apply Forall_forall. by_computation.
  - apply Forall_forall. by_computation.
  - vm_compute. reflexivity.
  - vm_compute. reflexivity.
  - vm_compute. reflexivity.
  - vm_compute. reflexivity.
  - vm_compute. reflexivity.
Defined.

(** ** The catalogue query *)

#[export] Instance precio_le_total {media} : Total (@Sql.precio_le media).
Proof. intros a b. unfold Sql.precio_le. apply Qc_le_total. Qed.

#[export] Instance precio_le_trans {media} : Transitive (@Sql.precio_le media).
Proof. intros a b c. unfold Sql.precio_le. apply Qcle_trans. Qed.

Section QueryFacts.
Context `{Engine}.

Lemma order_by_precio_sorted (rows : list row) :
  StronglySorted Sql.precio_le (Sql.order_by_precio rows).
Proof. apply StronglySorted_merge_sort; apply _. Qed.

Lemma order_by_precio_perm (rows : list row) :
  Sql.order_by_precio rows ≡ₚ rows.
Proof. apply merge_sort_Permutation. Qed.

Lemma where_conditions_table (filters : filter_dict) :
  where_conditions filters
  = flat_map
      (λ entry : pystr * (Sql.column * Sql.operator * (pyval → pyval)),
         when_active filters entry.1 entry.2.1.1 entry.2.1.2 entry.2.2)
      filter_meaning.
Proof. unfold where_conditions. simpl. by rewrite app_nil_r. Qed.

Lemma mapM_bind_condition_cons (c : Sql.column) (o : Sql.operator)
    (param : pyval) (rest : list Sql.condition) :
  mapM bind_condition (Sql.And c o param :: rest)
  = match Sql.bind param with
    | Some bound =>
        match mapM bind_condition rest with
        | Some others => Some ((c, o, bound) :: others)
        | None => None
        end
    | None => None
    end.
Proof.
  unfold bind_condition. cbn [mapM Sql.cond_param Sql.cond_column Sql.cond_operator].
  destruct (Sql.bind param); [|done]. cbn [mbind option_bind].
  by destruct (mapM _ rest).
Qed.

(** Binding the parameters of the conditions either raises, and then no
    record is selected, or yields conditions that hold of exactly the
    selected records. *)
Lemma bound_conditions_select (filters : filter_dict) (r : row) :
  selected filters r
  = match mapM bind_condition (where_conditions filters) with
    | Some bound => satisfies r bound
    | None => false
    end.
Proof.
  rewrite where_conditions_table. unfold selected.
  induction filter_meaning as [|[k [[c o] f]] table IH]; [done|].
  cbn [forallb flat_map fst snd]. rewrite IH. clear IH.
  unfold when_active, meets. cbn [fst snd].
  destruct (active filters k) as [v|]; [|by rewrite andb_true_l].
  cbn [app]. rewrite mapM_bind_condition_cons.
  destruct (Sql.bind (f v)) as [bound|]; [|done].
  destruct (mapM bind_condition _) as [others|]; [done|].
  by rewrite andb_false_r.
Qed.


Lemma filter_none {A} (P : A → Prop) `{∀ x, Decision (P x)} (l : list A) :
  (∀ x, ¬ P x) → filter P l = [].
Proof.
  intros Hnone. induction l as [|x l IH]; [done|].
  by rewrite filter_cons_False.
Qed.

Lemma filter_all {A} (P : A → Prop) `{∀ x, Decision (P x)} (l : list A) :
  (∀ x, P x) → filter P l = l.
Proof.
  intros Hall. induction l as [|x l IH]; [done|].
  by rewrite filter_cons_True, IH.
Qed.

Lemma query_properties_selected (db : list row) (filters : filter_dict) :
  query_properties db filters
  = to_dict <$> match mapM bind_condition (where_conditions filters) with
                | Some _ =>
                    Sql.order_by_precio (filter (λ r, selected filters r) db)
                | None => filter (λ r, selected filters r) db
                end.
Proof.
  unfold query_properties, execute.
  destruct (mapM bind_condition (where_conditions filters)) as [bound|]
    eqn:Hbound; cbn [mbind option_bind].
  - do 2 f_equal. apply list_filter_iff. intros r.
    by rewrite bound_conditions_select, Hbound.
  - rewrite filter_none; [done|].
    intros r. rewrite bound_conditions_select, Hbound. by intros [].
Qed.

Lemma selected_spec (filters : filter_dict) (r : row) :
  selected filters r = true ↔
  ∀ k meaning v,
    (k, meaning) ∈ filter_meaning → active filters k = Some v →
    meets r v meaning = true.
Proof.
  unfold selected. rewrite forallb_forall. split.
  - intros Hall k meaning v Hin Hactive.
    specialize (Hall (k, meaning) (proj1 (list_elem_of_In _ _) Hin)).
    cbn [fst snd] in Hall. by rewrite Hactive in Hall.
  - intros Hall [k meaning] Hin%list_elem_of_In. cbn [fst snd].
    destruct (active filters k) as [v|] eqn:Hactive; [|done].
    by apply (Hall k meaning v).
Qed.

(** C7 (as the code has it).  For every filter dictionary the query
    returns, in ascending order of price, exactly the stored records that
    meet every filter listed with a true value: a filter whose value is
    false (zero, the empty text, [None], [False]) is not applied, and a
    value that cannot be bound is met by no record.  With no filter present
    every stored record is returned. *)
Theorem query_sorted_and_conjunctive (db : list row) (filters : filter_dict) :
  StronglySorted Sql.precio_le (query_properties db filters)
  ∧ query_properties db filters
    ≡ₚ to_dict <$> filter (λ r, selected filters r) db
  ∧ (∀ r, r ∈ query_properties db filters ↔
       ∃ stored, stored ∈ db ∧ r = to_dict stored
         ∧ ∀ k meaning v,
             (k, meaning) ∈ filter_meaning → active filters k = Some v →
             meets stored v meaning = true)
  ∧ query_properties db ∅ ≡ₚ to_dict <$> db.
Proof.
  assert (Hperm : ∀ f, query_properties db f
                       ≡ₚ to_dict <$> filter (λ r, selected f r) db).
  { intros f. rewrite query_properties_selected.
    destruct (mapM bind_condition (where_conditions f)); [|done].
    by rewrite order_by_precio_perm. }
  split; [|split; [apply Hperm|split]].
  - rewrite query_properties_selected.
    destruct (mapM bind_condition (where_conditions filters)) as [bound|]
      eqn:Hbound.
    + eapply StronglySorted_fmap; [|apply order_by_precio_sorted].
      by intros a b.
    + rewrite filter_none; [constructor|].
      intros r. rewrite bound_conditions_select, Hbound. by intros [].
  - intros r. rewrite (Hperm filters), list_elem_of_fmap. split.
    + intros (stored & -> & [Hselected Hin]%list_elem_of_filter).
      exists stored. repeat split; [done|].
      by apply selected_spec, Is_true_true.
    + intros (stored & Hin & -> & Hmeets). exists stored. split; [done|].
      apply list_elem_of_filter. split; [|done].
      by apply Is_true_true, selected_spec.
  - rewrite (Hperm ∅), filter_all; [done|].
    intros r. apply Is_true_true, selected_spec.
    intros k meaning v _. unfold active. by rewrite lookup_empty.
Qed.

(** C9.  A key whose value is false plays no part in the query: the
    result is that of the dictionary without the key. *)
Theorem falsy_filter_ignored (db : list row) (filters : filter_dict)
    (k : pystr) (v : pyval) :
  filters !! k = Some v → truthy v = false →
  query_properties db filters = query_properties db (delete k filters).
Proof.
  intros Hk Hfalse.
  assert (Hactive : ∀ k', active (delete k filters) k' = active filters k').
  { intros k'. unfold active. destruct (decide (k' = k)) as [->|Hne].
    - by rewrite lookup_delete_eq, Hk, Hfalse.
    - by rewrite lookup_delete_ne. }
  assert (Hconditions :
            where_conditions (delete k filters) = where_conditions filters).
  { rewrite !where_conditions_table.
    induction filter_meaning as [|entry table IH]; [done|].
    cbn [flat_map]. rewrite IH. f_equal.
    unfold when_active. by rewrite Hactive. }
  unfold query_properties. by rewrite Hconditions.
Qed.

End QueryFacts.

Section QueryExamples.
#[local] Existing Instance example_engine.

(** C7, the claim as stated, fails: [max_price = 0] is listed, yet it is
    not applied, and all three records of the example catalogue come back
    although each costs more than zero. *)
Lemma zero_max_price_not_applied :
  titulo <$> query_properties example_catalog max_price_zero
  = [py "Departamento en Palermo"; py "PH en Boedo"; py "Casa en Palermo"]
  ∧ ¬ (∀ r, r ∈ query_properties example_catalog max_price_zero →
            (precio r ≤ Qc_of_Z 0)%Qc).
Proof.
  assert (Htitles :
    titulo <$> query_properties example_catalog max_price_zero
    = [py "Departamento en Palermo"; py "PH en Boedo"; py "Casa en Palermo"])
    by (vm_compute; reflexivity).
  split; [exact Htitles|].
  intros Hclaim.
  destruct (query_properties example_catalog max_price_zero)
    as [|r results] eqn:Hresults; [discriminate Htitles|].
  assert (Hprice : precio r = Qc_of_Z 1200).
  { assert (Hhead : head (query_properties example_catalog max_price_zero)
                    = Some r) by (by rewrite Hresults).
    vm_compute in Hhead. by injection Hhead as <-. }
  specialize (Hclaim r (list_elem_of_here _ _)).
  rewrite Hprice in Hclaim. by vm_compute in Hclaim.
Qed.

(** C9 at work: the upper bound zero on the price selects what no filter
    at all selects. *)
Lemma falsy_filter_ignored_witness :
  query_properties example_catalog max_price_zero
  = query_properties example_catalog (delete k_max_price max_price_zero).
Proof.
  apply (falsy_filter_ignored _ _ k_max_price (PInt 0)); reflexivity.
Defined.

End QueryExamples.

(** ** The chat handlers *)

Section HandlerFacts.
Context `{StrLower} `{Engine} `{!Provider} `{!ResponseModel}.

Lemma str_lower_hola : str_lower (py "hola") = py "hola".
Proof. rewrite str_lower_latin by by_computation. reflexivity. Qed.

Lemma detect_filters_hola : detect_filters (py "hola") = ∅.
Proof. rewrite detect_filters_latin. vm_compute. reflexivity. Qed.

(** C4 (as the code has it), for the handler of [backend/main-ai.py]: a
    request whose message is "hola" and whose previous context is absent
    or empty issues no completion attempt and counts no gateway call;
    whenever it is answered with status 200 the reply is the welcome
    message, and it is so answered when the form sent no filters. *)
Theorem greeting_short_circuit (API_KEYS : list pystr)
    (request : ChatRequest) (w : world) :
  message request = py "hola" →
  dict_truthy (contexto_anterior request) = false →
  attempts (post_chat API_KEYS request w).2 = attempts w
  ∧ gemini_calls (metrics (post_chat API_KEYS request w).2)
    = gemini_calls (metrics w)
  ∧ (∀ body, (post_chat API_KEYS request w).1 = Ok200 body →
       response body = welcome_message)
  ∧ (dict_truthy (filters request) = false →
       (post_chat API_KEYS request w).1
       = Ok200 (ChatBody prop_dict welcome_message None false None)).
Proof.
  intros Hmessage Hcontext.
  unfold post_chat, valid_request, chat, chat_try.
  rewrite Hmessage.
  change (strip (py "hola")) with (py "hola").
  rewrite str_lower_hola.
  assert (Hgreeting :
            es_saludo_inicial (py "hola") (contexto_anterior request) = true).
  { unfold es_saludo_inicial. by rewrite Hcontext. }
  rewrite Hgreeting.
  change ((1 <=? length (py "hola"))%nat && (length (py "hola") <=? 1000)%nat)
    with true.
  change (bool_decide (py "hola" = [])) with false.
  cbn [fst snd].
  unfold combined_filters. rewrite detect_filters_hola, (left_id_L ∅ (∪)).
  repeat split.
  - repeat case_match; by simplify_eq.
  - repeat case_match; by simplify_eq.
  - intros body. repeat case_match; cbn [fst]; intros; by simplify_eq.
  - intros Hfilters. rewrite Hfilters.
    by rewrite bool_decide_eq_false_2 by (by intros []).
Qed.

(** C8, the failing input.  A message of white space passes the length
    check of the request model; [chat] strips it, finds it empty and raises
    the 400 it means to answer with, but inside its own [try], whose
    [except Exception] turns it into a 500.  No turn is logged. *)
Theorem blank_message_answered_500 (API_KEYS : list pystr) (w : world)
    (channel_ : pystr) (filters_ contexto : option filter_dict)
    (seguimiento : option bool) :
  let request :=
    {| message := py " "; channel := channel_; filters := filters_;
       contexto_anterior := contexto; es_seguimiento := seguimiento |} in
  chat_try API_KEYS request (count increment_requests w)
  = (inl (HTTPException 400 empty_message_detail), count increment_requests w)
  ∧ post_chat API_KEYS request w
    = (HttpError 500 (Some error_detail),
       count increment_failures (count increment_requests w))
  ∧ client_error 500 = false
  ∧ logs (post_chat API_KEYS request w).2 = logs w.
Proof. repeat split. Qed.

(** The empty message itself never reaches [chat] of [backend/main-ai.py]:
    the request model rejects it with status 422, and nothing changes. *)
Lemma empty_message_rejected (API_KEYS : list pystr) (request : ChatRequest)
    (w : world) :
  message request = [] →
  post_chat API_KEYS request w = (HttpError 422 None, w).
Proof. intros Hempty. unfold post_chat, valid_request. by rewrite Hempty. Qed.

(** [chat] of [main.py] answers a missing, null or empty message with
    status 400 and changes nothing. *)
Lemma flask_empty_message (API_KEYS : list pystr) (data : option flask_data)
    (w : world) :
  match data with
  | Some d => d_message d = Missing ∨ d_message d = Null
              ∨ d_message d = Value []
  | None => True
  end →
  flask_chat API_KEYS data w = (HttpError 400 (Some empty_message_detail), w).
Proof.
  destruct data as [d|]; [|done]. unfold flask_chat.
  by intros [-> | [-> | ->]].
Qed.

Lemma filters_or_empty (o : option filter_dict) :
  (if dict_truthy o then default ∅ o else ∅) = default ∅ o.
Proof.
  destruct o as [d|]; [|done]. unfold dict_truthy. simpl.
  by case_bool_decide.
Qed.

Lemma consistent_fields (answer : pystr) (found : list prop_dict)
    (merged : filter_dict) :
  consistent
    (ChatBody prop_dict answer
       (length <$> (if bool_decide (merged ≠ ∅) then Some found else None))
       (bool_decide (merged ≠ ∅))
       (if bool_decide (merged ≠ ∅) then Some found else None))
    merged.
Proof.
  unfold consistent. cbn [search_performed propiedades results_count].
  case_bool_decide as Hmerged; repeat split; try done.
  intros _. by exists found.
Qed.

(** C10.  In every reply with status 200, of either handler,
    [search_performed] is true exactly when the merged filters are not
    empty; in that case [propiedades] holds the records and
    [results_count] their number, and otherwise both are absent. *)
Theorem results_fields_consistent (API_KEYS : list pystr) (w : world) :
  (∀ d body,
     (flask_chat API_KEYS (Some d) w).1 = Ok200 body →
     consistent body (flask_merged_filters d))
  ∧ (∀ request body,
       (post_chat API_KEYS request w).1 = Ok200 body →
       consistent body (merged_filters request)).
Proof.
  split.
  - intros d body. unfold flask_chat, flask_chat_body, flask_merged_filters.
    destruct (d_message d) as [| |[|c m]]; try done.
    destruct (d_channel d) as [| |canal]; try done;
      destruct (d_filters d) as [| |frontend]; try done;
      cbn [get_or fmap option_fmap option_map mbind option_bind];
      destruct (call_gemini_with_rotation _ _ _) as [answer made];
      cbn [fst]; intros [= <-]; apply consistent_fields.
  - intros request body.
    unfold post_chat, chat, chat_try, merged_filters.
    rewrite filters_or_empty.
    destruct (valid_request request); [|done].
    case_bool_decide as Hblank; [done|].
    set (merged := combined_filters _ _).
    destruct (es_saludo_inicial _ _).
    + destruct (bool_decide (merged ≠ ∅)) eqn:Hmerged.
      * destruct (accepts _); [|done].
        cbn [fst]. intros [= <-].
        pose proof (consistent_fields welcome_message
          (query_properties (properties (count increment_requests w)) merged)
          merged) as Hfields.
        by rewrite Hmerged in Hfields.
      * cbn [fst]. intros [= <-].
        pose proof (consistent_fields welcome_message [] merged) as Hfields.
        by rewrite Hmerged in Hfields.
    + destruct (call_gemini_with_rotation _ _ _) as [answer made].
      destruct (bool_decide (merged ≠ ∅)) eqn:Hmerged.
      * destruct (query_properties _ merged) as [|r found] eqn:Hquery.
        -- destruct (accepts _); [|done]. cbn [fst]. intros [= <-].
           pose proof (consistent_fields answer [] merged) as Hfields.
           by rewrite Hmerged in Hfields.
        -- destruct (accepts _); [|done]. cbn [fst]. intros [= <-].
           pose proof (consistent_fields
             (clean_response answer (length (r :: found))) (r :: found)
             merged) as Hfields.
           by rewrite Hmerged in Hfields.
      * cbn [fst]. intros [= <-].
        pose proof (consistent_fields answer [] merged) as Hfields.
        by rewrite Hmerged in Hfields.
Qed.

End HandlerFacts.

Section HandlerExamples.
#[local] Existing Instance latin_lower.
#[local] Existing Instance example_engine.
#[local] Existing Instance accept_all.

(** C4 at work on the greeting with every other field at its default. *)
Lemma greeting_short_circuit_witness :
  attempts (post_chat (H1 := failing_provider) three_keys
              (plain_request "hola") example_world).2
  = attempts example_world
  ∧ gemini_calls (metrics (post_chat (H1 := failing_provider) three_keys
                             (plain_request "hola") example_world).2)
    = gemini_calls (metrics example_world)
  ∧ (∀ body,
       (post_chat (H1 := failing_provider) three_keys
          (plain_request "hola") example_world).1 = Ok200 body →
       response body = welcome_message)
  ∧ (dict_truthy (filters (plain_request "hola")) = false →
       (post_chat (H1 := failing_provider) three_keys
          (plain_request "hola") example_world).1
       = Ok200 (ChatBody prop_dict welcome_message None false None)).
Proof.
  apply (greeting_short_circuit (H1 := failing_provider)); reflexivity.
Defined.

(** C4, the claim as stated, fails for the handler of [main.py], which has
    no greeting branch: the same greeting is sent to the gateway, one
    completion attempt is made, and the reply is the model's text. *)
Lemma flask_greeting_reaches_gateway :
  (flask_chat (H1 := answering_provider greeting_reply) three_keys
     (Some hola_data) example_world).1
  = Ok200 (ChatBody prop_dict greeting_reply None false None)
  ∧ fst <$> attempts (flask_chat (H1 := answering_provider greeting_reply)
                        three_keys (Some hola_data) example_world).2
    = [py "key-1"]
  ∧ greeting_reply ≠ welcome_message.
Proof.
  split; [vm_compute; reflexivity|].
  split; [vm_compute; reflexivity|].
  intros Hsame. vm_compute in Hsame. discriminate Hsame.
Qed.

(** C10 at work: a search that finds two records through the handler of
    [backend/main-ai.py], and a greeting through that of [main.py]. *)
Lemma results_fields_consistent_witness :
  (∃ body,
     (post_chat (H1 := answering_provider greeting_reply) three_keys
        (plain_request "busco algo en Palermo") example_world).1 = Ok200 body
     ∧ results_count body = Some 2%nat
     ∧ consistent body (merged_filters (plain_request "busco algo en Palermo")))
  ∧ (∃ body,
       (flask_chat (H1 := answering_provider greeting_reply) three_keys
          (Some hola_data) example_world).1 = Ok200 body
       ∧ results_count body = None
       ∧ consistent body (flask_merged_filters hola_data)).
Proof.
  pose proof (results_fields_consistent
                (H1 := answering_provider greeting_reply) three_keys
                example_world) as [Hflask Hfastapi].
  split.
  - destruct (post_chat (H1 := answering_provider greeting_reply) three_keys
                (plain_request "busco algo en Palermo") example_world).1
      as [body|status detail] eqn:Hreply; [|by vm_compute in Hreply].
    exists body. split; [reflexivity|]. split; [|by apply Hfastapi].
    assert (Hcount :
      match (post_chat (H1 := answering_provider greeting_reply) three_keys
               (plain_request "busco algo en Palermo") example_world).1 with
      | Ok200 b => results_count b
      | HttpError _ _ => None
      end = Some 2%nat) by (vm_compute; reflexivity).
    by rewrite Hreply in Hcount.
  - destruct (flask_chat (H1 := answering_provider greeting_reply) three_keys
                (Some hola_data) example_world).1
      as [body|status detail] eqn:Hreply; [|by vm_compute in Hreply].
    exists body. split; [reflexivity|]. split; [|by apply Hflask].
    assert (Hcount :
      match (flask_chat (H1 := answering_provider greeting_reply) three_keys
               (Some hola_data) example_world).1 with
      | Ok200 b => results_count b
      | HttpError _ _ => None
      end = None) by (vm_compute; reflexivity).
    by rewrite Hreply in Hcount.
Defined.

End HandlerExamples.

(** * Further properties *)

(** ** The gateway: rotation and key loading *)

Section RotationFacts.
Context `{Engine} `{!Provider}.

Lemma rotate_app_fail (before rest : list pystr) (p : prompt)
    (made : list attempt) :
  (∀ (i : nat) (key : pystr),
     before !! i = Some key →
     completes (generate_content (length made + i) key p) = false) →
  rotate (before ++ rest) p made
  = rotate rest p (made ++ ((λ key, (key, p)) <$> before)).
Proof.
  revert made. induction before as [|key before IH]; intros made Hfail.
  - simpl. by rewrite app_nil_r.
  - cbn [app rotate fmap list_fmap].
    pose proof (Hfail 0%nat key eq_refl) as Hkey.
    rewrite Nat.add_0_r in Hkey.
    rewrite IH.
    + replace (made ++ (key, p) :: ((λ key0, (key0, p)) <$> before))
        with ((made ++ [(key, p)]) ++ ((λ key0, (key0, p)) <$> before))
        by (by rewrite <- app_assoc).
      by destruct (generate_content (length made) key p)
        as [|[|parts] [text|]].
    + intros i key' Hkey'. rewrite length_app. simpl.
      replace (length made + 1 + i)%nat with (length made + S i)%nat by lia.
      by apply Hfail.
Qed.

(** The reply comes from the first key whose attempt completes: the keys
    before it are tried once each, in order, that key is tried once, the
    keys after it are never used, and the text returned is the completion
    with surrounding white space removed. *)
Theorem gateway_first_completion (before after : list pystr) (key : pystr)
    (p : prompt) (made : list attempt) (parts : nat) (text : pystr) :
  (∀ (i : nat) (earlier : pystr),
     before !! i = Some earlier →
     completes (generate_content (length made + i) earlier p) = false) →
  generate_content (length made + length before) key p
  = Responds (S parts) (Some text) →
  call_gemini_with_rotation (before ++ key :: after) p made
  = (strip text,
     made ++ ((λ k, (k, p)) <$> before) ++ [(key, p)]).
Proof.
  intros Hfail Hkey.
  assert (Hrotate :
    rotate (before ++ key :: after) p made
    = (strip text, made ++ ((λ k, (k, p)) <$> before) ++ [(key, p)])).
  { rewrite rotate_app_fail by done. cbn [rotate].
    rewrite length_app, length_fmap, Hkey. by rewrite <- app_assoc. }
  unfold call_gemini_with_rotation.
  by destruct (before ++ key :: after) eqn:Hkeys;
    [destruct before; discriminate Hkeys|].
Qed.

Lemma rotate_prefix (keys : list pystr) (p : prompt) (made : list attempt) :
  ∃ n, (n ≤ length keys)%nat
       ∧ (rotate keys p made).2 = made ++ ((λ k, (k, p)) <$> take n keys).
Proof.
  revert made. induction keys as [|key keys IH]; intros made.
  - exists 0%nat. simpl. by rewrite app_nil_r.
  - cbn [rotate].
    destruct (IH (made ++ [(key, p)])) as (n & Hn & Hrest).
    assert (Hcontinue :
      ∃ n0, (n0 ≤ length (key :: keys))%nat
            ∧ (rotate keys p (made ++ [(key, p)])).2
              = made ++ ((λ k, (k, p)) <$> take n0 (key :: keys))).
    { exists (S n). split; [simpl; lia|].
      rewrite Hrest. cbn [take fmap list_fmap]. by rewrite <- app_assoc. }
    destruct (generate_content (length made) key p) as [|[|parts] [text|]];
      try exact Hcontinue.
    exists 1%nat. split; [simpl; lia|]. done.
Qed.

(** Whatever the provider does, the gateway only adds attempts to the ones
    already made, one per key of an initial stretch of [API_KEYS], in
    order and each with the caller's prompt: no key is tried twice and
    none is skipped. *)
Theorem gateway_attempts_are_key_prefix (API_KEYS : list pystr) (p : prompt)
    (made : list attempt) :
  ∃ n, (n ≤ length API_KEYS)%nat
       ∧ (call_gemini_with_rotation API_KEYS p made).2
         = made ++ ((λ k, (k, p)) <$> take n API_KEYS).
Proof.
  unfold call_gemini_with_rotation. destruct API_KEYS as [|key keys].
  - exists 0%nat. simpl. by rewrite app_nil_r.
  - apply rotate_prefix.
Qed.

End RotationFacts.

Section RotationExample.
#[local] Existing Instance example_engine.
#[local] Existing Instance recovering_provider.

Lemma gateway_first_completion_witness :
  call_gemini_with_rotation ([py "key-1"] ++ py "key-2" :: [py "key-3"])
    example_prompt []
  = (strip (py "  Tengo tres opciones para vos.  "),
     [] ++ ((λ k, (k, example_prompt)) <$> [py "key-1"])
     ++ [(py "key-2", example_prompt)]).
Proof.
  apply (gateway_first_completion [py "key-1"] [py "key-3"] (py "key-2")
           example_prompt [] 0).
  - intros [|i] earlier Hearlier; [reflexivity|discriminate Hearlier].
  - reflexivity.
Defined.

End RotationExample.

Lemma lstrip_cases (s : pystr) :
  lstrip s = [] ∨ ∃ c rest, lstrip s = c :: rest ∧ isspace c = false.
Proof.
  induction s as [|c s IH]; simpl; [by left|].
  destruct (isspace c) eqn:Hc; [exact IH|]. right. by exists c, s.
Qed.

Lemma lstrip_app_stop (front : pystr) (c : N) (back : pystr) :
  isspace c = false → lstrip (front ++ c :: back) = lstrip front ++ c :: back.
Proof.
  intros Hc. induction front as [|d front IH]; simpl.
  - by rewrite Hc.
  - by destruct (isspace d).
Qed.

Lemma lstrip_idempotent (s : pystr) : lstrip (lstrip s) = lstrip s.
Proof.
  destruct (lstrip_cases s) as [->|(c & rest & -> & Hc)]; [done|].
  simpl. by rewrite Hc.
Qed.

Lemma rstrip_cons (c : N) (rest : pystr) :
  isspace c = false → rstrip (c :: rest) = c :: rstrip rest.
Proof.
  intros Hc. unfold rstrip. cbn [rev].
  rewrite (lstrip_app_stop (rev rest) c []) by done.
  by rewrite rev_app_distr.
Qed.

Lemma rstrip_idempotent (s : pystr) : rstrip (rstrip s) = rstrip s.
Proof. unfold rstrip. by rewrite rev_involutive, lstrip_idempotent. Qed.

Lemma strip_idempotent (s : pystr) : strip (strip s) = strip s.
Proof.
  unfold strip.
  destruct (lstrip_cases s) as [->|(c & rest & -> & Hc)]; [done|].
  rewrite rstrip_cons by done. cbn [lstrip]. rewrite Hc.
  by rewrite rstrip_cons, rstrip_idempotent.
Qed.

(** At most three keys are loaded, in the order of their variables; each
    is the stripped value of one of the three variables, is not empty and
    carries no white space at either end. *)
Theorem loaded_keys_are_stripped_values (environ : pystr → option pystr) :
  (length (load_api_keys environ) ≤ 3)%nat
  ∧ Forall
      (λ key,
         key ≠ [] ∧ strip key = key
         ∧ ∃ key_name key_value,
             key_name ∈ key_names ∧ environ key_name = Some key_value
             ∧ key = strip key_value)
      (load_api_keys environ).
Proof.
  unfold load_api_keys.
  assert (Hone : ∀ key_name,
    key_name ∈ key_names →
    let loaded :=
      match environ key_name with
      | Some key_value =>
          if str_truthy (Some key_value) && str_truthy (Some (strip key_value))
          then [strip key_value] else []
      | None => []
      end in
    (length loaded ≤ 1)%nat
    ∧ Forall
        (λ key,
           key ≠ [] ∧ strip key = key
           ∧ ∃ key_name key_value,
               key_name ∈ key_names ∧ environ key_name = Some key_value
               ∧ key = strip key_value) loaded).
  { intros key_name Hname. cbv zeta.
    destruct (environ key_name) as [key_value|] eqn:Hvalue;
      [|by split; [simpl; lia|constructor]].
    destruct (str_truthy (Some key_value)); cbn [andb];
      [|by split; [simpl; lia|constructor]].
    destruct (strip key_value) as [|c rest] eqn:Hstrip; cbn [str_truthy];
      [by split; [simpl; lia|constructor]|].
    split; [simpl; lia|]. constructor; [|constructor].
    split; [done|]. split.
    - rewrite <- Hstrip. apply strip_idempotent.
    - exists key_name, key_value. by rewrite Hstrip. }
  destruct (Hone (py "GEMINI_API_KEY_1")) as [Hlen1 Hall1];
    [unfold key_names; repeat constructor|].
  destruct (Hone (py "GEMINI_API_KEY_2")) as [Hlen2 Hall2];
    [unfold key_names; repeat constructor|].
  destruct (Hone (py "GEMINI_API_KEY_3")) as [Hlen3 Hall3];
    [unfold key_names; repeat constructor|].
  cbn [flat_map]. rewrite app_nil_r. split.
  - rewrite !length_app. lia.
  - by repeat apply Forall_app_2.
Qed.

(** ** The conversation log *)

Lemma last_turn_filter (canal : pystr) (t : turn) (logs : list turn) :
  filter (λ t, log_channel t = canal) (rev (logs ++ [t]))
  = if decide (log_channel t = canal)
    then t :: filter (λ t, log_channel t = canal) (rev logs)
    else filter (λ t, log_channel t = canal) (rev logs).
Proof.
  rewrite rev_app_distr. cbn [rev app]. rewrite filter_cons.
  by destruct (decide (log_channel t = canal)).
Qed.

Lemma flat_map_take_pairs {A B} (f : A → list B) (n : nat) (l : list A) :
  (∀ x, length (f x) = 2%nat) →
  flat_map f (take n l) = take (2 * n) (flat_map f l).
Proof.
  intros Hf. revert l. induction n as [|n IH]; intros [|x l]; try done.
  cbn [take flat_map]. rewrite IH.
    replace (2 * S n)%nat with (length (f x) + 2 * n)%nat by (rewrite Hf; lia).
    by rewrite take_app_add.
Qed.

(** A turn written with [log_conversation] is what [get_last_bot_response]
    reads back for its channel, and it changes the answer for no other
    channel. *)
Theorem last_response_round_trip (user_message bot_response channel
    canal : pystr) (search_performed : bool) (results_count : nat)
    (logs : list turn) :
  get_last_bot_response
    (log_conversation user_message bot_response channel search_performed
       results_count logs) canal
  = if decide (channel = canal) then Some bot_response
    else get_last_bot_response logs canal.
Proof.
  unfold get_last_bot_response, log_conversation.
  rewrite last_turn_filter. cbn [log_channel].
  by destruct (decide (channel = canal)).
Qed.

(** Logging a turn puts its two lines at the head of the channel's
    history and pushes out what no longer fits in ten lines; the history
    of every other channel stays as it was. *)
Theorem history_after_logging (user_message bot_response channel
    canal : pystr) (search_performed : bool) (results_count : nat)
    (logs : list turn) :
  get_historial_canal
    (log_conversation user_message bot_response channel search_performed
       results_count logs) canal
  = if decide (channel = canal)
    then take 10 ((py "Usuario: " ++ user_message)
                  :: (py "Bot: " ++ bot_response)
                  :: get_historial_canal logs canal)
    else get_historial_canal logs canal.
Proof.
  unfold get_historial_canal, log_conversation.
  rewrite last_turn_filter. cbn [log_channel].
  destruct (decide (channel = canal)); [|done].
  cbn [take flat_map log_user_message log_bot_response app].
  do 2 f_equal.
  rewrite !flat_map_take_pairs by done.
  by rewrite take_take.
Qed.

(** The history holds two lines for each of the channel's turns, up to
    five turns: never more than ten lines, and none for a channel that
    has no turn. *)
Theorem history_length (logs : list turn) (canal : pystr) :
  length (get_historial_canal logs canal)
  = (2 * (length (filter (λ t, log_channel t = canal) logs) `min` 5))%nat.
Proof.
  unfold get_historial_canal.
  rewrite flat_map_take_pairs by done. rewrite length_take.
  assert (Hpairs : ∀ l : list turn,
    length (flat_map (λ t, [py "Usuario: " ++ log_user_message t;
                            py "Bot: " ++ log_bot_response t]) l)
    = (2 * length l)%nat).
  { induction l as [|t l IH]; [done|]. cbn [flat_map length app].
    rewrite IH. lia. }
  rewrite Hpairs.
  assert (Hrev : length (filter (λ t, log_channel t = canal) (rev logs))
                 = length (filter (λ t, log_channel t = canal) logs)).
  { induction logs as [|t logs IH]; [done|].
    cbn [rev]. rewrite filter_app, length_app, IH, !filter_cons.
    destruct (decide (log_channel t = canal)); simpl; lia. }
  rewrite Hrev. lia.
Qed.

(** The second line of a channel's history is the reply that
    [get_last_bot_response] gives for it. *)
Theorem history_shows_last_response (logs : list turn) (canal : pystr) :
  get_historial_canal logs canal !! 1%nat
  = (λ bot_response, py "Bot: " ++ bot_response)
    <$> get_last_bot_response logs canal.
Proof.
  unfold get_historial_canal, get_last_bot_response.
  by destruct (filter (λ t, log_channel t = canal) (rev logs)).
Qed.

(** ** The response clean-up *)

Lemma contains_single (c : N) (text : pystr) :
  contains [c] text = true ↔ c ∈ text.
Proof.
  rewrite contains_spec. split.
  - intros (before & after & ->). apply elem_of_app. right. by left.
  - intros (before & after & ->)%list_elem_of_split. by exists before, after.
Qed.

Lemma has_property_emoji_points (text : pystr) :
  has_property_emoji text
  = existsb (λ c, bool_decide (c ∈ property_emoji_points)) text.
Proof.
  change (has_property_emoji text)
    with (existsb (λ emoji, contains emoji text)
            ((λ point, [point]) <$> property_emoji_points)).
  apply eq_true_iff_eq. rewrite !existsb_exists. split.
  - intros (emoji & Hin & Hcontains).
    apply list_elem_of_In, list_elem_of_fmap in Hin as (point & -> & Hpoint).
    exists point. split.
    + by apply list_elem_of_In, contains_single.
    + by apply bool_decide_eq_true.
  - intros (c & Hin & Hpoint). apply bool_decide_eq_true in Hpoint.
    exists [c]. split.
    + apply list_elem_of_In, list_elem_of_fmap. by exists c.
    + by apply contains_single, list_elem_of_In.
Qed.

Lemma has_property_emoji_app (a b : pystr) :
  has_property_emoji (a ++ b) = has_property_emoji a || has_property_emoji b.
Proof. rewrite !has_property_emoji_points. apply existsb_app. Qed.

Lemma has_property_emoji_occurs (sub text : pystr) :
  occurs_in sub text → has_property_emoji text = false →
  has_property_emoji sub = false.
Proof.
  intros (before & after & ->). rewrite !has_property_emoji_app.
  intros Hnone. apply orb_false_iff in Hnone as [_ Hnone].
  by apply orb_false_iff in Hnone as [Hnone _].
Qed.

Lemma has_property_emoji_join (lines : list pystr) :
  Forall (λ line, has_property_emoji line = false) lines →
  has_property_emoji (join [10] lines) = false.
Proof.
  induction 1 as [|line lines Hline Hlines IH]; [done|].
  destruct lines as [|next lines]; [done|].
  change (join [10] (line :: next :: lines))
    with (line ++ [10] ++ join [10] (next :: lines)).
  by rewrite !has_property_emoji_app, Hline, IH.
Qed.

Lemma decode_ascii (s : string) :
  Forall (λ a, Utf8.byte_of a < 128) (String.list_ascii_of_string s) →
  py s = Utf8.byte_of <$> String.list_ascii_of_string s.
Proof.
  unfold Utf8.decode.
  induction 1 as [|a l Ha Hl IH]; [done|].
  cbn [fmap list_fmap Utf8.go]. apply N.ltb_lt in Ha. rewrite Ha.
  f_equal. exact IH.
Qed.

Lemma pretty_N_go_digits (x : N) (s : string) :
  Forall (λ a, 48 ≤ Utf8.byte_of a ≤ 57) (String.list_ascii_of_string s) →
  Forall (λ a, 48 ≤ Utf8.byte_of a ≤ 57)
    (String.list_ascii_of_string (pretty_N_go x s)).
Proof.
  revert s. induction (N.lt_wf_0 x) as [x _ IH]. intros s Hs.
  destruct (decide (x = 0)) as [->|Hx]; [by rewrite pretty_N_go_0|].
  rewrite pretty_N_go_step by lia.
  apply IH; [apply N.div_lt; lia|].
  cbn [String.list_ascii_of_string]. constructor; [|done].
  unfold pretty_N_char.
  repeat case_match; split; by apply N.leb_le.
Qed.

(** [str(n)] of a natural number is made of the digits 0 to 9. *)
Lemma str_of_nat_digits (n : nat) :
  Forall (λ c, 48 ≤ c ≤ 57) (str_of_nat n).
Proof.
  unfold str_of_nat.
  assert (Hdigits :
    Forall (λ a, 48 ≤ Utf8.byte_of a ≤ 57)
      (String.list_ascii_of_string (pretty n))).
  { unfold pretty, pretty_nat, pretty, pretty_N.
    destruct (decide (N.of_nat n = 0)).
    - repeat constructor; by apply N.leb_le.
    - apply pretty_N_go_digits. constructor. }
  rewrite decode_ascii.
  - by apply Forall_fmap.
  - eapply Forall_impl; [exact Hdigits|]. intros a Ha. simpl in Ha. lia.
Qed.

Lemma has_property_emoji_str_of_nat (n : nat) :
  has_property_emoji (str_of_nat n) = false.
Proof.
  rewrite has_property_emoji_points.
  apply not_true_is_false. intros (c & Hin & Hpoint)%existsb_exists.
  apply bool_decide_eq_true in Hpoint.
  pose proof (proj1 (Forall_forall _ _) (str_of_nat_digits n) c
                (proj2 (list_elem_of_In _ _) Hin)) as Hdigit.
  simpl in Hdigit. vm_compute in Hpoint.
  repeat (apply elem_of_cons in Hpoint as [->|Hpoint]; [lia|]).
  by apply elem_of_nil in Hpoint.
Qed.

Lemma clean_from_kept (lines : list pystr) (i total : nat)
    (skip_next_lines : bool) :
  clean_from lines i total skip_next_lines `sublist_of` lines
  ∧ Forall (λ line, listing_line line = false)
      (clean_from lines i total skip_next_lines).
Proof.
  revert i skip_next_lines.
  induction lines as [|line rest IH]; intros i skip_next_lines; [done|].
  cbn [clean_from].
  destruct (starts_listing (strip line)) eqn:Hlisting;
    [destruct (IH (S i) true); split; [by apply sublist_cons|done]|].
  destruct (has_property_emoji line) eqn:Hemoji;
    [destruct (IH (S i) skip_next_lines);
     split; [by apply sublist_cons|done]|].
  destruct skip_next_lines.
  - destruct (IH (S i)
                (if bool_decide (strip line = []) || (S i =? total)%nat
                 then false else true)).
    split; [by apply sublist_cons|done].
  - destruct (IH (S i) false). split; [by apply sublist_skip|].
    constructor; [|done]. unfold listing_line. by rewrite Hlisting, Hemoji.
Qed.

(** The clean-up only drops lines: what it keeps are lines of the
    completion, in their order and unchanged, and none of them is a
    numbered line of a listing or holds one of the five property emoji. *)
Theorem clean_lines_are_plain_lines (answer : pystr) :
  clean_lines answer `sublist_of` split 10 answer
  ∧ Forall (λ line, listing_line line = false) (clean_lines answer).
Proof. apply clean_from_kept. Qed.

Lemma clean_from_plain (lines : list pystr) (i total : nat) :
  Forall (λ line, listing_line line = false) lines →
  clean_from lines i total false = lines.
Proof.
  intros Hplain. revert i.
  induction Hplain as [|line rest Hline Hrest IH]; intros i; [done|].
  cbn [clean_from]. unfold listing_line in Hline.
  apply orb_false_iff in Hline as [-> ->]. by rewrite IH.
Qed.

Lemma split_not_nil (sep : N) (s : pystr) : split sep s ≠ [].
Proof.
  destruct s as [|c s]; [done|]. cbn [split].
  destruct (c =? sep); [done|]. by destruct (split sep s).
Qed.

(** Joining the pieces of [split] with the separator gives the text back. *)
Lemma join_split (sep : N) (s : pystr) : join [sep] (split sep s) = s.
Proof.
  induction s as [|c s IH]; [done|]. cbn [split].
  pose proof (split_not_nil sep s) as Hpieces.
  destruct (split sep s) as [|piece pieces]; [done|].
  destruct (c =? sep) eqn:Hc.
  - apply N.eqb_eq in Hc as ->.
    change (join [sep] ([] :: piece :: pieces))
      with (sep :: join [sep] (piece :: pieces)).
    by rewrite IH.
  - destruct pieces as [|next pieces]; simpl in *; by rewrite IH.
Qed.

Section ShaperFacts.
Context `{StrLower}.

(** Whatever the completion, the text the clean-up returns holds none of
    the five property emoji (house, pin, money bag, clipboard, speech
    balloon): not in a line it kept, and not in the sentences it writes
    itself. *)
Theorem clean_response_has_no_property_emoji (answer : pystr) (count : nat) :
  has_property_emoji (clean_response answer count) = false.
Proof.
  assert (Hcleaned :
    has_property_emoji (strip (join [10] (clean_lines answer))) = false).
  { eapply has_property_emoji_occurs; [apply strip_occurs|].
    apply has_property_emoji_join.
    eapply Forall_impl; [apply clean_from_kept|].
    intros line Hline. unfold listing_line in Hline.
    by apply orb_false_iff in Hline as [_ Hline]. }
  unfold clean_response. cbv zeta.
  destruct (bool_decide _ || _).
  - unfold generic_message.
    rewrite !has_property_emoji_app, has_property_emoji_str_of_nat.
    by vm_compute.
  - destruct (negb _ && negb _); [|exact Hcleaned].
    unfold see_below_suffix.
    rewrite !has_property_emoji_app, Hcleaned, has_property_emoji_str_of_nat.
    by vm_compute.
Qed.

(** The text the clean-up returns is never shorter than twenty
    characters: a shorter remainder is replaced by the sentence that
    announces the number of records. *)
Theorem clean_response_length (answer : pystr) (count : nat) :
  (20 ≤ length (clean_response answer count))%nat.
Proof.
  unfold clean_response. cbv zeta.
  destruct (bool_decide _ || _) eqn:Hshort.
  - unfold generic_message. rewrite !length_app.
    assert (Hwords :
      length (py " propiedades que coinciden con tu búsqueda. Te las muestro abajo:")
      = 65%nat) by (vm_compute; reflexivity).
    rewrite Hwords. lia.
  - apply orb_false_iff in Hshort as [_ Hshort].
    apply Nat.ltb_ge in Hshort.
    destruct (negb _ && negb _); [rewrite length_app|]; lia.
Qed.

(** A completion without listing lines passes through the clean-up with
    its surrounding white space removed, provided at least twenty
    characters remain; the sentence that points to the records below is
    appended when the text mentions neither "propiedad" nor "encontré". *)
Theorem plain_reply_passes (answer : pystr) (count : nat) :
  Forall (λ line, listing_line line = false) (split 10 answer) →
  (20 ≤ length (strip answer))%nat →
  clean_response answer count
  = if contains (py "propiedad") (str_lower (strip answer))
       || contains (py "encontré") (str_lower (strip answer))
    then strip answer
    else strip answer ++ see_below_suffix count.
Proof.
  intros Hplain Hlong. unfold clean_response, clean_lines. cbv zeta.
  rewrite clean_from_plain, join_split by done.
  destruct (strip answer) as [|c rest] eqn:Hstrip; [simpl in Hlong; lia|].
  rewrite bool_decide_eq_false_2 by done.
  rewrite (proj2 (Nat.ltb_ge _ _) Hlong). cbn [orb].
  by destruct (contains (py "propiedad") _), (contains (py "encontré") _).
Qed.

End ShaperFacts.

Lemma plain_reply_passes_witness :
  Forall (λ line, listing_line line = false) (split 10 plain_reply)
  ∧ (20 ≤ length (strip plain_reply))%nat
  ∧ clean_response (H := latin_lower) plain_reply 2
    = py "Tengo dos propiedades que te pueden interesar.".
Proof.
  assert (Hplain :
    Forall (λ line, listing_line line = false) (split 10 plain_reply))
    by by_computation.
  assert (Hlong : (20 ≤ length (strip plain_reply))%nat)
    by (vm_compute; lia).
  split; [exact Hplain|]. split; [exact Hlong|].
  rewrite (plain_reply_passes (H := latin_lower) plain_reply 2 Hplain Hlong).
  vm_compute. reflexivity.
Defined.

(** ** The catalogue query, filter by filter *)

Lemma like_percent_nil (pattern : pystr) :
  Sql.like (37 :: pattern) [] = Sql.like pattern [] || false.
Proof. reflexivity. Qed.

Lemma like_percent_cons (pattern : pystr) (c : N) (text : pystr) :
  Sql.like (37 :: pattern) (c :: text)
  = Sql.like pattern (c :: text) || Sql.like (37 :: pattern) text.
Proof. reflexivity. Qed.

Lemma like_percent (pattern text : pystr) :
  Sql.like (37 :: pattern) text = true ↔
  ∃ skipped rest, text = skipped ++ rest ∧ Sql.like pattern rest = true.
Proof.
  induction text as [|c text IH].
  - rewrite like_percent_nil, orb_false_r. split.
    + intros Hrest. by exists [], [].
    + intros (skipped & rest & Heq & Hrest).
      symmetry in Heq. apply app_eq_nil in Heq as [_ ->]. exact Hrest.
  - rewrite like_percent_cons, orb_true_iff, IH. split.
    + intros [Hhere | (skipped & rest & -> & Hrest)].
      * by exists [], (c :: text).
      * by exists (c :: skipped), rest.
    + intros ([|c' skipped] & rest & Heq & Hrest).
      * left. by rewrite Heq.
      * right. injection Heq as -> ->. by exists skipped, rest.
Qed.

Lemma like_literal (s pattern text : pystr) :
  wildcard_free s →
  Sql.like (s ++ pattern) text = true ↔
  ∃ matched rest,
    text = matched ++ rest
    ∧ Sql.fold_ascii <$> matched = Sql.fold_ascii <$> s
    ∧ Sql.like pattern rest = true.
Proof.
  intros Hfree. revert text.
  induction Hfree as [|a s [Hpercent Hunderscore] Hfree IH]; intros text.
  - split.
    + intros Hrest. by exists [], text.
    + intros (matched & rest & -> & Hmatched & Hrest).
      apply fmap_nil_inv in Hmatched as ->. exact Hrest.
  - cbn [app Sql.like].
    rewrite (proj2 (N.eqb_neq a 37) Hpercent),
      (proj2 (N.eqb_neq a 95) Hunderscore).
    destruct text as [|c text].
    + split; [done|]. intros (matched & rest & Heq & Hmatched & _).
      destruct matched; [discriminate Hmatched|discriminate Heq].
    + cbn [orb]. rewrite andb_true_iff, N.eqb_eq, IH. split.
      * intros [Hfold (matched & rest & -> & Hmatched & Hrest)].
        exists (c :: matched), rest. repeat split; [|done].
        cbn [fmap list_fmap]. by rewrite Hfold, <- Hmatched.
      * intros ([|c' matched] & rest & Heq & Hmatched & Hrest);
          [discriminate Hmatched|].
        injection Heq as -> ->. injection Hmatched as Hfold Hmatched.
        split; [done|]. by exists matched, rest.
Qed.

Lemma like_percent_only (text : pystr) : Sql.like [37] text = true.
Proof.
  induction text as [|c text IH]; [done|].
  by rewrite like_percent_cons, IH, orb_true_r.
Qed.

(** [text LIKE '%s%'] for a text [s] without wild cards: [s] occurs in
    [text], the case of ASCII letters disregarded. *)
Lemma like_substring (s text : pystr) :
  wildcard_free s →
  Sql.like (py "%" ++ s ++ py "%") text = true ↔
  occurs_ignoring_ascii_case s text.
Proof.
  intros Hfree.
  change (py "%" ++ s ++ py "%") with (37 :: (s ++ [37])).
  rewrite like_percent. unfold occurs_ignoring_ascii_case, occurs_in. split.
  - intros (skipped & rest & -> & Hlike).
    apply like_literal in Hlike as (matched & rest' & -> & Hmatched & _);
      [|done].
    exists (Sql.fold_ascii <$> skipped), (Sql.fold_ascii <$> rest').
    by rewrite !fmap_app, Hmatched.
  - intros (before & after & Heq).
    apply fmap_app_inv in Heq as (skipped & rest & -> & Hrest & ->).
    symmetry in Hrest.
    apply fmap_app_inv in Hrest as (matched & rest' & Hmatched & -> & ->).
    exists skipped, (matched ++ rest'). split; [done|].
    apply like_literal; [done|].
    exists matched, rest'. repeat split; [done|]. apply like_percent_only.
Qed.

Lemma Qc_of_Z_le (n m : Z) : (Qc_of_Z n ≤ Qc_of_Z m)%Qc ↔ (n ≤ m)%Z.
Proof. symmetry. apply Z2Qc_inj_le. Qed.

Lemma assoc_functional {A B} (l : list (A * B)) (x : A) (y1 y2 : B) :
  NoDup l.*1 → (x, y1) ∈ l → (x, y2) ∈ l → y1 = y2.
Proof.
  induction l as [|[x' y'] l IH]; [by intros _ Hin%elem_of_nil|].
  cbn [fmap list_fmap fst]. intros [Hfresh Hrest]%NoDup_cons.
  intros [[= -> ->]|Hin1]%elem_of_cons [[= ->]|Hin2]%elem_of_cons.
  - done.
  - destruct Hfresh. apply list_elem_of_fmap. by exists (x', y2).
  - simplify_eq. destruct Hfresh. apply list_elem_of_fmap. by exists (x', y1).
  - by apply IH.
Qed.

Lemma filter_keys_distinct : NoDup filter_meaning.*1.
Proof. by_computation. Qed.

Section QueryMeaning.
Context `{Engine}.

Lemma elem_of_query_properties (db : list row) (filters : filter_dict)
    (r : prop_dict) :
  r ∈ query_properties db filters ↔
  ∃ stored, stored ∈ db ∧ r = to_dict stored
            ∧ selected filters stored = true.
Proof.
  assert (Hperm : query_properties db filters
                  ≡ₚ to_dict <$> filter (λ r, selected filters r) db).
  { rewrite query_properties_selected.
    destruct (mapM bind_condition (where_conditions filters)); [|done].
    by rewrite order_by_precio_perm. }
  rewrite Hperm, list_elem_of_fmap. split.
  - intros (stored & -> & [Hselected Hin]%list_elem_of_filter).
    exists stored. repeat split; [done|]. by apply Is_true_true.
  - intros (stored & Hin & -> & Hselected). exists stored. split; [done|].
    apply list_elem_of_filter. split; [|done]. by apply Is_true_true.
Qed.

Lemma active_delete (filters : filter_dict) (k k' : pystr) :
  active (delete k filters) k'
  = if decide (k' = k) then None else active filters k'.
Proof.
  unfold active. destruct (decide (k' = k)) as [->|Hne].
  - by rewrite lookup_delete_eq.
  - by rewrite lookup_delete_ne.
Qed.

Lemma selected_without (filters : filter_dict) (k : pystr) (v : pyval)
    (meaning : Sql.column * Sql.operator * (pyval → pyval)) (stored : row) :
  (k, meaning) ∈ filter_meaning → active filters k = Some v →
  selected filters stored = true ↔
  selected (delete k filters) stored = true ∧ meets stored v meaning = true.
Proof.
  intros Hentry Hactive. rewrite !selected_spec. split.
  - intros Hall. split; [|by apply (Hall k)].
    intros k' meaning' v' Hentry'. rewrite active_delete.
    destruct (decide (k' = k)); [done|]. by apply Hall.
  - intros [Hothers Hmeets] k' meaning' v' Hentry' Hactive'.
    destruct (decide (k' = k)) as [->|Hne].
    + rewrite Hactive in Hactive'. injection Hactive' as <-.
      by rewrite (assoc_functional _ _ _ _ filter_keys_distinct
                    Hentry' Hentry).
    + apply (Hothers k' meaning' v' Hentry').
      rewrite active_delete. by destruct (decide (k' = k)).
Qed.

Lemma holds_to_dict (stored : row) (c : Sql.column) (o : Sql.operator)
    (bound : Sql.value) :
  Sql.holds (to_dict stored) c o bound = Sql.holds stored c o bound.
Proof. by destruct c, o. Qed.

(** The records found with a filter that is listed with a true value are
    those found without it that pass its test; when its parameter cannot
    be bound there are none. *)
Lemma query_with_filter (db : list row) (filters : filter_dict) (k : pystr)
    (column : Sql.column) (op : Sql.operator) (param : pyval → pyval)
    (v : pyval) (r : prop_dict) :
  (k, (column, op, param)) ∈ filter_meaning →
  filters !! k = Some v → truthy v = true →
  r ∈ query_properties db filters ↔
  ∃ bound, Sql.bind (param v) = Some bound
           ∧ r ∈ query_properties db (delete k filters)
           ∧ Sql.holds r column op bound = true.
Proof.
  intros Hentry Hk Htruthy.
  assert (Hactive : active filters k = Some v).
  { unfold active. by rewrite Hk, Htruthy. }
  split.
  - intros (stored & Hin & -> & Hselected)%elem_of_query_properties.
    apply (selected_without _ _ _ _ _ Hentry Hactive) in Hselected
      as [Hothers Hmeets].
    unfold meets in Hmeets. cbn [fst snd] in Hmeets.
    destruct (Sql.bind (param v)) as [bound|]; [|done].
    exists bound. split; [done|]. split.
    + apply elem_of_query_properties. by exists stored.
    + by rewrite holds_to_dict.
  - intros (bound & Hbound & Hfound & Hholds).
    apply elem_of_query_properties in Hfound
      as (stored & Hin & -> & Hothers).
    apply elem_of_query_properties.
    exists stored. repeat split; [done|].
    apply (selected_without _ _ _ _ _ Hentry Hactive). split; [done|].
    unfold meets. cbn [fst snd]. by rewrite Hbound, <- holds_to_dict.
Qed.

Lemma query_with_integer (db : list row) (filters : filter_dict) (k : pystr)
    (column : Sql.column) (op : Sql.operator) (n : Z) (r : prop_dict) :
  (k, (column, op, id)) ∈ filter_meaning →
  filters !! k = Some (PInt n) → n ≠ 0%Z →
  r ∈ query_properties db filters ↔
  in_int64 n ∧ r ∈ query_properties db (delete k filters)
  ∧ Sql.holds r column op (Sql.Integer n) = true.
Proof.
  intros Hentry Hk Hn.
  rewrite (query_with_filter db filters k column op id (PInt n) r Hentry Hk)
    by (by apply negb_true_iff, Z.eqb_neq).
  unfold in_int64. cbn [id Sql.bind]. split.
  - intros (bound & Hbound & Hothers & Hholds).
    destruct (_ && _) eqn:Hrange; [|done]. injection Hbound as <-.
    apply andb_true_iff in Hrange as [Hlow Hhigh]. split; [lia|done].
  - intros (Hrange & Hothers & Hholds). exists (Sql.Integer n).
    split; [|done].
    by rewrite (proj2 (andb_true_iff _ _)) by (split; lia).
Qed.

Lemma query_with_text (db : list row) (filters : filter_dict) (k : pystr)
    (column : Sql.column) (op : Sql.operator) (param : pyval → pyval)
    (s : pystr) (r : prop_dict) :
  (k, (column, op, param)) ∈ filter_meaning →
  filters !! k = Some (PStr s) → s ≠ [] →
  (∃ pattern, param (PStr s) = PStr pattern) →
  r ∈ query_properties db filters ↔
  r ∈ query_properties db (delete k filters)
  ∧ ∃ pattern, param (PStr s) = PStr pattern
               ∧ Sql.holds r column op (Sql.Text pattern) = true.
Proof.
  intros Hentry Hk Hs [pattern Hpattern].
  rewrite (query_with_filter db filters k column op param (PStr s) r
             Hentry Hk)
    by (cbn [truthy]; by rewrite bool_decide_eq_false_2).
  rewrite Hpattern. cbn [Sql.bind]. split.
  - intros (bound & [= <-] & Hothers & Hholds). split; [done|].
    by exists pattern.
  - intros (Hothers & pattern' & [= <-] & Hholds).
    by exists (Sql.Text pattern).
Qed.

(** The price bounds.  A non-zero integer under [max_price] keeps, of the
    records found without it, those whose price is at most that number,
    and one under [min_price] those whose price is at least that number;
    an integer outside the 64-bit range leaves no record. *)
Theorem price_bounds (db : list row) (filters : filter_dict) (n : Z)
    (r : prop_dict) :
  n ≠ 0%Z →
  (filters !! k_max_price = Some (PInt n) →
   r ∈ query_properties db filters ↔
   in_int64 n ∧ r ∈ query_properties db (delete k_max_price filters)
   ∧ (precio r ≤ Qc_of_Z n)%Qc)
  ∧ (filters !! k_min_price = Some (PInt n) →
     r ∈ query_properties db filters ↔
     in_int64 n ∧ r ∈ query_properties db (delete k_min_price filters)
     ∧ (Qc_of_Z n ≤ precio r)%Qc).
Proof.
  intros Hn. split; intros Hk.
  - rewrite (query_with_integer db filters k_max_price Sql.c_precio Sql.LE
               n r) by (done || unfold filter_meaning; set_solver).
    cbn [Sql.holds Sql.numeric_le]. by rewrite bool_decide_eq_true.
  - rewrite (query_with_integer db filters k_min_price Sql.c_precio Sql.GE
               n r) by (done || unfold filter_meaning; set_solver).
    cbn [Sql.holds Sql.numeric_ge]. by rewrite bool_decide_eq_true.
Qed.

(** The bounds on rooms and area.  A non-zero integer under [min_rooms]
    keeps the records with at least that many rooms, one under [min_sqm]
    or [max_sqm] those of at least or at most that many square metres;
    an integer outside the 64-bit range leaves no record. *)
Theorem rooms_and_area_bounds (db : list row) (filters : filter_dict)
    (n : Z) (r : prop_dict) :
  n ≠ 0%Z →
  (filters !! k_min_rooms = Some (PInt n) →
   r ∈ query_properties db filters ↔
   in_int64 n ∧ r ∈ query_properties db (delete k_min_rooms filters)
   ∧ (n ≤ ambientes r)%Z)
  ∧ (filters !! k_min_sqm = Some (PInt n) →
     r ∈ query_properties db filters ↔
     in_int64 n ∧ r ∈ query_properties db (delete k_min_sqm filters)
     ∧ (Qc_of_Z n ≤ metros_cuadrados r)%Qc)
  ∧ (filters !! k_max_sqm = Some (PInt n) →
     r ∈ query_properties db filters ↔
     in_int64 n ∧ r ∈ query_properties db (delete k_max_sqm filters)
     ∧ (metros_cuadrados r ≤ Qc_of_Z n)%Qc).
Proof.
  intros Hn. split; [|split]; intros Hk.
  - rewrite (query_with_integer db filters k_min_rooms Sql.c_ambientes Sql.GE
               n r) by (done || unfold filter_meaning; set_solver).
    cbn [Sql.holds Sql.numeric_ge]. by rewrite bool_decide_eq_true, Qc_of_Z_le.
  - rewrite (query_with_integer db filters k_min_sqm Sql.c_metros_cuadrados
               Sql.GE n r) by (done || unfold filter_meaning; set_solver).
    cbn [Sql.holds Sql.numeric_ge]. by rewrite bool_decide_eq_true.
  - rewrite (query_with_integer db filters k_max_sqm Sql.c_metros_cuadrados
               Sql.LE n r) by (done || unfold filter_meaning; set_solver).
    cbn [Sql.holds Sql.numeric_le]. by rewrite bool_decide_eq_true.
Qed.

(** The exact filters.  A non-empty text under [tipo] or [operacion]
    keeps the records whose type or operation is that very text, letter
    case included. *)
Theorem exact_text_filters (db : list row) (filters : filter_dict)
    (s : pystr) (r : prop_dict) :
  s ≠ [] →
  (filters !! k_tipo = Some (PStr s) →
   r ∈ query_properties db filters ↔
   r ∈ query_properties db (delete k_tipo filters) ∧ tipo r = s)
  ∧ (filters !! k_operacion = Some (PStr s) →
     r ∈ query_properties db filters ↔
     r ∈ query_properties db (delete k_operacion filters)
     ∧ operacion r = s).
Proof.
  intros Hs. split; intros Hk.
  - rewrite (query_with_text db filters k_tipo Sql.c_tipo Sql.EQ id s r)
      by (done || (by exists s) || unfold filter_meaning; set_solver).
    cbn [id Sql.holds Sql.text_eq]. split.
    + intros (Hothers & pattern & [= <-] & Heq%bool_decide_eq_true). done.
    + intros [Hothers Heq]. split; [done|]. exists s.
      by rewrite bool_decide_eq_true.
  - rewrite (query_with_text db filters k_operacion Sql.c_operacion Sql.EQ id
               s r)
      by (done || (by exists s) || unfold filter_meaning; set_solver).
    cbn [id Sql.holds Sql.text_eq]. split.
    + intros (Hothers & pattern & [= <-] & Heq%bool_decide_eq_true). done.
    + intros [Hothers Heq]. split; [done|]. exists s.
      by rewrite bool_decide_eq_true.
Qed.


Lemma active_insert_other (filters : filter_dict) (k k' : pystr) (v : pyval) :
  k' ≠ k → active (<[k := v]> filters) k' = active filters k'.
Proof. intros Hne. unfold active. by rewrite lookup_insert_ne. Qed.

(** The query reads the nine keys of its table and nothing else: a value
    put under any other key changes no result. *)
Theorem other_keys_are_ignored (db : list row) (filters : filter_dict)
    (k : pystr) (v : pyval) :
  k ∉ filter_meaning.*1 →
  query_properties db (<[k := v]> filters) = query_properties db filters.
Proof.
  intros Hk.
  assert (Hconditions :
    where_conditions (<[k := v]> filters) = where_conditions filters).
  { rewrite !where_conditions_table.
    induction filter_meaning as [|[k' meaning] table IH]; [done|].
    cbn [flat_map fst snd]. cbn [fmap list_fmap fst] in Hk.
    apply not_elem_of_cons in Hk as [Hne Hk].
    rewrite (IH Hk). f_equal.
    unfold when_active. by rewrite active_insert_other. }
  unfold query_properties. by rewrite Hconditions.
Qed.

(** Adding filters never adds records: what is found with a dictionary is
    found with every dictionary it extends. *)
Theorem more_filters_fewer_records (db : list row)
    (filters filters' : filter_dict) :
  filters ⊆ filters' →
  query_properties db filters' ⊆ query_properties db filters.
Proof.
  intros Hsub r. rewrite !elem_of_query_properties.
  intros (stored & Hin & -> & Hselected). exists stored.
  repeat split; [done|].
  apply selected_spec. intros k meaning v Hentry Hactive.
  apply (proj1 (selected_spec filters' stored) Hselected k meaning v Hentry).
  unfold active in *.
  destruct (filters !! k) as [v'|] eqn:Hk; [|done].
  by rewrite (lookup_weaken _ _ _ _ Hk Hsub).
Qed.

End QueryMeaning.

Section QueryMeaningExamples.
#[local] Existing Instance example_engine.

Lemma price_bounds_witness :
  (100000 ≠ 0)%Z
  ∧ under_100000 !! k_max_price = Some (PInt 100000)
  ∧ titulo <$> query_properties example_catalog under_100000
    = [py "Departamento en Palermo"; py "PH en Boedo"]
  ∧ ∀ r, r ∈ query_properties example_catalog under_100000 →
         (precio r ≤ Qc_of_Z 100000)%Qc.
Proof.
  split; [done|]. split; [reflexivity|]. split; [vm_compute; reflexivity|].
  intros r Hr.
  destruct (price_bounds example_catalog under_100000 100000 r) as [Hmax _];
    [done|].
  by apply Hmax in Hr as (_ & _ & Hprice).
Defined.

Lemma rooms_and_area_bounds_witness :
  (3 ≠ 0)%Z
  ∧ three_rooms !! k_min_rooms = Some (PInt 3)
  ∧ titulo <$> query_properties example_catalog three_rooms
    = [py "PH en Boedo"; py "Casa en Palermo"]
  ∧ ∀ r, r ∈ query_properties example_catalog three_rooms →
         (3 ≤ ambientes r)%Z.
Proof.
  split; [done|]. split; [reflexivity|]. split; [vm_compute; reflexivity|].
  intros r Hr.
  destruct (rooms_and_area_bounds example_catalog three_rooms 3 r)
    as [Hrooms _]; [done|].
  by apply Hrooms in Hr as (_ & _ & Hcount).
Defined.

Lemma exact_text_filters_witness :
  py "ph" ≠ []
  ∧ only_ph !! k_tipo = Some (PStr (py "ph"))
  ∧ titulo <$> query_properties example_catalog only_ph = [py "PH en Boedo"]
  ∧ ∀ r, r ∈ query_properties example_catalog only_ph → tipo r = py "ph".
Proof.
  split; [done|]. split; [reflexivity|]. split; [vm_compute; reflexivity|].
  intros r Hr.
  destruct (exact_text_filters example_catalog only_ph (py "ph") r)
    as [Htipo _]; [done|].
  by apply Htipo in Hr as [_ Hsame].
Defined.


Lemma other_keys_are_ignored_witness :
  (py "limit" ∉ filter_meaning.*1)
  ∧ query_properties example_catalog (<[py "limit" := PInt 1]> under_100000)
    = query_properties example_catalog under_100000.
Proof.
  assert (Hkey : py "limit" ∉ filter_meaning.*1) by by_computation.
  split; [exact Hkey|].
  exact (other_keys_are_ignored example_catalog under_100000 (py "limit")
           (PInt 1) Hkey).
Defined.

Lemma more_filters_fewer_records_witness :
  under_100000 ⊆ <[k_tipo := PStr (py "ph")]> under_100000
  ∧ query_properties example_catalog (<[k_tipo := PStr (py "ph")]> under_100000)
    ⊆ query_properties example_catalog under_100000.
Proof.
  assert (Hsub : under_100000 ⊆ <[k_tipo := PStr (py "ph")]> under_100000)
    by (apply insert_subseteq; reflexivity).
  split; [exact Hsub|].
  exact (more_filters_fewer_records example_catalog _ _ Hsub).
Defined.

End QueryMeaningExamples.

(** ** The extractor, entry by entry *)

Lemma int_of_digits_nonneg (s : pystr) : (0 ≤ int_of_digits s)%Z.
Proof.
  unfold int_of_digits.
  assert (Hfold : ∀ acc, (0 ≤ acc)%Z →
    (0 ≤ fold_left
           (λ n c, n * 10 + Z.of_N (default 0%N (decimal_value c)))%Z s acc)%Z).
  { induction s as [|c s IH]; intros acc Hacc; [done|].
    cbn [fold_left]. apply IH. lia. }
  by apply Hfold.
Qed.

Lemma py_int_nonneg (s : pystr) (n : Z) : py_int s = Some n → (0 ≤ n)%Z.
Proof.
  unfold py_int. destruct s as [|c s]; [done|].
  destruct (forallb isdecimal (c :: s)); [|done].
  intros [= <-]. apply int_of_digits_nonneg.
Qed.

Lemma max_price_from_nonneg (patterns : list Re.regex) (text_lower : pystr)
    (precio : Z) :
  max_price_from patterns text_lower = Some precio → (0 ≤ precio)%Z.
Proof.
  induction patterns as [|pattern rest IH]; [done|].
  cbn [max_price_from].
  destruct (Re.search pattern text_lower) as [m|]; [|done].
  destruct (py_int _) as [n|] eqn:Hn; [|done].
  intros [= <-]. by apply py_int_nonneg in Hn.
Qed.

Lemma first_in_some (vocabulary : list pystr) (text word : pystr) :
  first_in vocabulary text = Some word →
  word ∈ vocabulary ∧ occurs_in word text.
Proof.
  unfold first_in. intros [Hin Hcontains]%find_some.
  split; [by apply list_elem_of_In|by apply contains_spec].
Qed.

Section ExtractorEntries.
Context `{StrLower}.

Lemma first_in_vocabulary (vocabulary : list pystr) (text found : pystr) :
  first_in (str_lower <$> vocabulary) text = Some found →
  ∃ word, word ∈ vocabulary ∧ found = str_lower word
          ∧ occurs_in (str_lower word) text.
Proof.
  intros [(word & -> & Hword)%list_elem_of_fmap Hoccurs]%first_in_some.
  by exists word.
Qed.

Lemma barrio_from_patterns_some (patterns : list Re.regex)
    (text_lower found : pystr) :
  patterns ⊆ Patterns.barrio_patterns →
  barrio_from_patterns patterns (str_lower <$> BARRIOS) text_lower
  = Some found →
  ∃ barrio, barrio ∈ BARRIOS ∧ found = str_lower barrio
            ∧ occurs_in (str_lower barrio) (lower_latin <$> text_lower).
Proof.
  intros Hsub. induction patterns as [|pattern rest IH]; [done|].
  cbn [barrio_from_patterns].
  assert (Hrest : rest ⊆ Patterns.barrio_patterns)
    by (intros p Hp; apply Hsub; by right).
  destruct (Re.search pattern text_lower) as [m|] eqn:Hsearch;
    [|by apply IH].
  apply barrio_pattern_capture in Hsearch as [Hoccurs Hlatin];
    [|apply Hsub; by left].
  case_bool_decide as Hin; [|by apply IH].
  intros [= <-].
  apply list_elem_of_fmap in Hin as (barrio & Hlower & Hbarrio).
  exists barrio. repeat split; [done..|].
  rewrite <- Hlower.
  rewrite str_lower_latin
    by (eapply Forall_occurs; [apply strip_occurs|exact Hlatin]).
  apply occurs_in_fmap.
  eapply occurs_in_trans; [apply strip_occurs|exact Hoccurs].
Qed.

Lemma direct_barrio_occurs (text_lower found : pystr) :
  first_in (str_lower <$> BARRIOS) text_lower = Some found →
  ∃ barrio, barrio ∈ BARRIOS ∧ found = str_lower barrio
            ∧ occurs_in (str_lower barrio) (lower_latin <$> text_lower).
Proof.
  intros (barrio & Hbarrio & -> & Hoccurs)%first_in_vocabulary.
  exists barrio. repeat split; [done|].
  apply (occurs_in_fmap lower_latin) in Hoccurs.
  rewrite (str_lower_barrio _ Hbarrio) in Hoccurs |- *.
  rewrite <- list_fmap_compose in Hoccurs.
  by rewrite (list_fmap_ext (lower_latin ∘ lower_latin) lower_latin barrio)
    in Hoccurs by (intros; apply lower_latin_idempotent).
Qed.

Ltac detect_stage :=
  match goal with
  | |- map_Forall ?P (match _ with Some _ => _ | None => ?m end) =>
      let F := fresh "F" in
      let HF := fresh "HF" in
      cut (map_Forall P m);
      [ generalize m; intros F HF; repeat case_match; try exact HF;
        apply map_Forall_insert_2; [|exact HF]
      | ]
  end.

Lemma detect_filters_entries (text_lower : pystr) :
  map_Forall (detected_entry text_lower) (detect_filters text_lower).
Proof.
  unfold detect_filters. cbv zeta.
  detect_stage.
  { right; right; right. split; [set_solver|].
    eexists. split; [done|]. apply int_of_digits_nonneg. }
  detect_stage.
  { right; right; right. split; [set_solver|].
    eexists. split; [done|]. apply int_of_digits_nonneg. }
  detect_stage.
  { right; right; right. split; [set_solver|].
    eexists. split; [done|]. by eapply py_int_nonneg. }
  detect_stage.
  { right; right; right. split; [set_solver|].
    eexists. split; [done|]. by eapply max_price_from_nonneg. }
  detect_stage.
  { right; right; left. split; [done|].
    match goal with
    | Hfound : first_in _ _ = Some _ |- _ =>
        apply first_in_vocabulary in Hfound as (word & ? & -> & ?)
    end.
    by exists word. }
  detect_stage.
  { right; left. split; [done|].
    match goal with
    | Hfound : first_in _ _ = Some _ |- _ =>
        apply first_in_vocabulary in Hfound as (word & ? & -> & ?)
    end.
    by exists word. }
  destruct (first_in (str_lower <$> BARRIOS) text_lower)
    as [[|c found]|] eqn:Hfirst; cbn [str_truthy].
  - destruct (barrio_from_patterns _ _ _) as [[|c found]|] eqn:Hpattern;
      cbn [str_truthy]; try apply map_Forall_empty.
    apply map_Forall_insert_2; [|apply map_Forall_empty].
    left. split; [done|].
    apply barrio_from_patterns_some in Hpattern as (barrio & ? & -> & ?);
      [by exists barrio|done].
  - apply map_Forall_insert_2; [|apply map_Forall_empty].
    left. split; [done|].
    apply direct_barrio_occurs in Hfirst as (barrio & ? & -> & ?).
    by exists barrio.
  - destruct (barrio_from_patterns _ _ _) as [[|c found]|] eqn:Hpattern;
      cbn [str_truthy]; try apply map_Forall_empty.
    apply map_Forall_insert_2; [|apply map_Forall_empty].
    left. split; [done|].
    apply barrio_from_patterns_some in Hpattern as (barrio & ? & -> & ?);
      [by exists barrio|done].
Qed.

(** Every entry of the extractor's result is of one of four kinds: a
    gazetteer name in lower case, found in the text when the case of
    Latin letters is disregarded, under [neighborhood]; a type or an
    operation word of the text under [tipo] or [operacion]; a natural
    number under [max_price], [min_price], [min_rooms] or [min_sqm].  No
    other key is ever set, [barrio] and [max_sqm] included. *)
Theorem detected_entries_are_well_formed (text_lower : pystr) :
  map_Forall (detected_entry text_lower) (detect_filters text_lower).
Proof. apply detect_filters_entries. Qed.

End ExtractorEntries.

Section TypeDetection.
Context `{StrLower}.

Ltac later_stage :=
  match goal with
  | |- (match _ with Some _ => _ | None => ?m end) !! ?k = ?found =>
      let F := fresh "F" in
      let HF := fresh "HF" in
      cut (m !! k = found);
      [ generalize m; intros F HF; repeat case_match;
        rewrite ?lookup_insert_ne by key_ne; exact HF
      | ]
  end.

(** The entry under [tipo] is the first word of [TIPOS], in list order,
    that occurs in the text. *)
Lemma detect_tipo (text_lower : pystr) :
  detect_filters text_lower !! k_tipo
  = PStr <$> first_in (str_lower <$> TIPOS) text_lower.
Proof.
  unfold detect_filters. cbv zeta.
  do 5 later_stage.
  match goal with
  | |- (match _ with Some _ => _ | None => ?m end) !! _ = _ =>
      assert (Hbefore : m !! k_tipo = None);
      [|revert Hbefore; generalize m; intros F HF]
  end.
  - repeat case_match; rewrite ?lookup_insert_ne by key_ne;
      apply lookup_empty.
  - destruct (first_in (str_lower <$> TIPOS) text_lower); [|exact HF].
    apply lookup_insert_eq.
Qed.

End TypeDetection.

Section ShadowedType.
Context `{StrLower}.

(** "casaquinta" is never the type detected: any text that holds it holds
    "casa", which comes first in [TIPOS] and ends the scan. *)
Theorem casaquinta_never_detected (text_lower : pystr) :
  detect_filters text_lower !! k_tipo ≠ Some (PStr (py "casaquinta")).
Proof.
  rewrite detect_filters_latin, (detect_tipo (H := latin_lower)).
  change (@str_lower latin_lower <$> TIPOS)
    with [py "casa"; py "terreno"; py "departamento"; py "oficina";
          py "ph"; py "casaquinta"].
  unfold first_in. cbn [find].
  destruct (contains (py "casa") text_lower) eqn:Hcasa;
    [intros Hsame; vm_compute in Hsame; discriminate Hsame|].
  destruct (contains (py "terreno") text_lower);
    [intros Hsame; vm_compute in Hsame; discriminate Hsame|].
  destruct (contains (py "departamento") text_lower);
    [intros Hsame; vm_compute in Hsame; discriminate Hsame|].
  destruct (contains (py "oficina") text_lower);
    [intros Hsame; vm_compute in Hsame; discriminate Hsame|].
  destruct (contains (py "ph") text_lower);
    [intros Hsame; vm_compute in Hsame; discriminate Hsame|].
  destruct (contains (py "casaquinta") text_lower) eqn:Hquinta; [|done].
  intros _. apply contains_spec in Hquinta.
  apply contains_false in Hcasa. apply Hcasa.
  eapply occurs_in_trans; [|exact Hquinta].
  by exists [], (py "quinta").
Qed.

End ShadowedType.

(** ** The chat handlers: records, log and counters *)

Section HandlerEffects.
Context `{StrLower} `{Engine} `{!Provider} `{!ResponseModel}.

Lemma flask_chat_records (API_KEYS : list pystr) (w : world)
    (d : flask_data) (body : chat_body prop_dict) :
  (flask_chat API_KEYS (Some d) w).1 = Ok200 body →
  propiedades body
  = if bool_decide (flask_merged_filters d ≠ ∅)
    then Some (query_properties (properties w) (flask_merged_filters d))
    else None.
Proof.
  unfold flask_chat, flask_chat_body, flask_merged_filters.
  destruct (d_message d) as [| |[|c m]]; try done.
  destruct (d_channel d) as [| |canal]; try done;
    destruct (d_filters d) as [| |frontend]; try done;
    cbn [get_or fmap option_fmap option_map mbind option_bind];
    destruct (call_gemini_with_rotation _ _ _) as [answer made];
    cbn [fst]; by intros [= <-].
Qed.

Lemma post_chat_records (API_KEYS : list pystr) (w : world)
    (request : ChatRequest) (body : chat_body prop_dict) :
  (post_chat API_KEYS request w).1 = Ok200 body →
  propiedades body
  = if bool_decide (merged_filters request ≠ ∅)
    then Some (query_properties (properties w) (merged_filters request))
    else None.
Proof.
  unfold post_chat, chat, chat_try, merged_filters.
  rewrite filters_or_empty.
  destruct (valid_request request); [|done].
  case_bool_decide as Hblank; [done|].
  set (merged := combined_filters _ _).
  destruct (es_saludo_inicial _ _).
  - destruct (bool_decide (merged ≠ ∅)) eqn:Hmerged.
    + destruct (accepts _); [|done]. cbn [fst]. by intros [= <-].
    + cbn [fst]. by intros [= <-].
  - destruct (call_gemini_with_rotation _ _ _) as [answer made].
    destruct (bool_decide (merged ≠ ∅)) eqn:Hmerged.
    + destruct (query_properties _ merged) as [|r found] eqn:Hquery.
      * destruct (accepts _); [|done]. cbn [fst]. intros [= <-].
        cbn [propiedades]. by rewrite <- Hquery.
      * destruct (accepts _); [|done]. cbn [fst]. intros [= <-].
        cbn [propiedades]. by rewrite <- Hquery.
    + cbn [fst]. by intros [= <-].
Qed.

(** The records of a reply are what the catalogue query returns for the
    merged filters, in its order, and they are present exactly when the
    merged filters are not empty; this holds for both handlers. *)
Theorem reply_records_are_query_results (API_KEYS : list pystr) (w : world) :
  (∀ d body,
     (flask_chat API_KEYS (Some d) w).1 = Ok200 body →
     propiedades body
     = if bool_decide (flask_merged_filters d ≠ ∅)
       then Some (query_properties (properties w) (flask_merged_filters d))
       else None)
  ∧ (∀ request body,
       (post_chat API_KEYS request w).1 = Ok200 body →
       propiedades body
       = if bool_decide (merged_filters request ≠ ∅)
         then Some (query_properties (properties w) (merged_filters request))
         else None).
Proof.
  split.
  - intros d body. apply flask_chat_records.
  - intros request body. apply post_chat_records.
Qed.

(** The handler of [main.py] touches neither the catalogue nor the
    counters.  A reply with status 200 has logged exactly one turn: the
    stripped message, and the text, search flag and record count of the
    reply; an error reply leaves everything as it was. *)
Theorem flask_chat_effects (API_KEYS : list pystr) (data : option flask_data)
    (w : world) :
  properties (flask_chat API_KEYS data w).2 = properties w
  ∧ metrics (flask_chat API_KEYS data w).2 = metrics w
  ∧ match (flask_chat API_KEYS data w).1 with
    | Ok200 body =>
        ∃ d message channel,
          data = Some d ∧ d_message d = Value message
          ∧ logs (flask_chat API_KEYS data w).2
            = logs w ++ [Turn channel (strip message) (response body)
                           (search_performed body)
                           (default 0%nat (results_count body))]
    | HttpError _ _ => (flask_chat API_KEYS data w).2 = w
    end.
Proof.
  unfold flask_chat, flask_chat_body.
  destruct data as [d|]; [|done].
  destruct (d_message d) as [| |[|c m]] eqn:Hmessage; try done.
  destruct (d_channel d) as [| |canal]; try done;
    destruct (d_filters d) as [| |frontend]; try done;
    cbn [get_or fmap option_fmap option_map mbind option_bind];
    destruct (call_gemini_with_rotation _ _ _) as [answer made];
    cbn [fst snd]; (repeat split; [done..|]);
    eexists d, (c :: m), _; (repeat split; [done..|]);
    unfold log_conversation; cbn [set_logs set_attempts logs];
    by destruct (bool_decide _).
Qed.

End HandlerEffects.

Section FastApiEffects.
Context `{StrLower} `{Engine} `{!Provider} `{!ResponseModel}.

Ltac metrics_after :=
  cbn [fst snd metrics count set_logs set_attempts increment_requests
       increment_success increment_failures increment_searches
       increment_gemini_calls requests_count successful_requests
       failed_requests search_queries gemini_calls orb].

Ltac logs_after :=
  cbn [fst snd logs count set_logs set_attempts log_conversation
       count_of_results response].

(** The counters of [backend/main-ai.py] after one valid request: the
    request is counted once; a failure is counted exactly when the reply
    is an error; a success is counted whenever the message is not blank,
    even if the response model then rejects the records and the reply is
    an error; a search is counted when the merged filters are not empty,
    and a gateway call unless the greeting branch answered. *)
Theorem fastapi_counters (API_KEYS : list pystr) (request : ChatRequest)
    (w : world) :
  valid_request request = true →
  let reply := post_chat API_KEYS request w in
  let blank := bool_decide (strip (message request) = []) in
  let greeting :=
    es_saludo_inicial (str_lower (strip (message request)))
      (contexto_anterior request) in
  requests_count (metrics reply.2) = S (requests_count (metrics w))
  ∧ successful_requests (metrics reply.2)
    = (successful_requests (metrics w) + if blank then 0 else 1)%nat
  ∧ failed_requests (metrics reply.2)
    = (failed_requests (metrics w)
       + match reply.1 with Ok200 _ => 0 | HttpError _ _ => 1 end)%nat
  ∧ search_queries (metrics reply.2)
    = (search_queries (metrics w)
       + if blank then 0
         else if bool_decide (merged_filters request ≠ ∅) then 1 else 0)%nat
  ∧ gemini_calls (metrics reply.2)
    = (gemini_calls (metrics w) + if blank || greeting then 0 else 1)%nat.
Proof.
  intros Hvalid. cbv zeta.
  unfold post_chat, chat, chat_try, merged_filters.
  rewrite Hvalid, filters_or_empty.
  case_bool_decide as Hblank; [metrics_after; repeat split; lia|].
  set (merged := combined_filters _ _).
  destruct (es_saludo_inicial _ _).
  - destruct (bool_decide (merged ≠ ∅)) eqn:Hmerged.
    + destruct (accepts _); metrics_after; repeat split; lia.
    + metrics_after. repeat split; lia.
  - destruct (bool_decide (merged ≠ ∅)) eqn:Hmerged.
    + destruct (call_gemini_with_rotation _ _ _) as [answer made].
      destruct (query_properties _ merged) as [|r found];
        destruct (accepts _); metrics_after; repeat split; lia.
    + destruct (call_gemini_with_rotation _ _ _) as [answer made].
      metrics_after. repeat split; lia.
Qed.

(** Any message that holds one of the greeting words, sent without
    previous context, is answered by the greeting branch of
    [backend/main-ai.py]: no completion attempt is made and a reply with
    status 200 carries the welcome message. *)
Theorem any_greeting_short_circuits (API_KEYS : list pystr)
    (request : ChatRequest) (w : world) :
  es_saludo_inicial (str_lower (strip (message request)))
    (contexto_anterior request) = true →
  attempts (post_chat API_KEYS request w).2 = attempts w
  ∧ ∀ body, (post_chat API_KEYS request w).1 = Ok200 body →
            response body = welcome_message.
Proof.
  intros Hgreeting.
  unfold post_chat, chat, chat_try.
  destruct (valid_request request); [|done].
  case_bool_decide as Hblank; [done|].
  rewrite Hgreeting.
  set (merged := combined_filters _ _).
  destruct (bool_decide (merged ≠ ∅)) eqn:Hmerged.
  - destruct (accepts _); cbn [fst snd]; split; try done.
    by intros body [= <-].
  - cbn [fst snd]. split; [done|]. by intros body [= <-].
Qed.

(** Every request that reaches the body of [chat] with a message that is
    not blank logs exactly one turn, whatever the status of the reply;
    the turn carries the stripped channel and message, the search flag
    and the number of records, and its text is the text of the reply when
    the status is 200.  A request that is rejected logs nothing. *)
Theorem fastapi_log (API_KEYS : list pystr) (request : ChatRequest)
    (w : world) :
  let reply := post_chat API_KEYS request w in
  let merged := merged_filters request in
  if valid_request request
     && negb (bool_decide (strip (message request) = []))
  then
    ∃ answer,
      logs reply.2
      = logs w ++ [Turn (strip (channel request)) (strip (message request))
                     answer (bool_decide (merged ≠ ∅))
                     (if bool_decide (merged ≠ ∅)
                      then length (query_properties (properties w) merged)
                      else 0%nat)]
      ∧ ∀ body, reply.1 = Ok200 body → response body = answer
  else
    logs reply.2 = logs w ∧ ∀ body, reply.1 ≠ Ok200 body.
Proof.
  cbv zeta. unfold post_chat, chat, chat_try, merged_filters.
  rewrite filters_or_empty.
  destruct (valid_request request); [|done].
  case_bool_decide as Hblank; [done|].
  set (merged := combined_filters _ _).
  cbn [andb negb].
  destruct (es_saludo_inicial _ _).
  - destruct (bool_decide (merged ≠ ∅)) eqn:Hmerged.
    + exists welcome_message.
      destruct (accepts _); logs_after; split; try done. by intros body [= <-].
    + exists welcome_message. logs_after. split; [done|]. by intros body [= <-].
  - destruct (call_gemini_with_rotation _ _ _) as [answer made].
    destruct (bool_decide (merged ≠ ∅)) eqn:Hmerged.
    + destruct (query_properties _ merged) as [|r found] eqn:Hquery.
      * exists answer.
        destruct (accepts _); logs_after; split; try done. by intros body [= <-].
      * exists (clean_response answer (length (r :: found))).
        destruct (accepts _); logs_after; split; try done. by intros body [= <-].
    + exists answer. logs_after. split; [done|]. by intros body [= <-].
Qed.

Lemma gateway_outage (API_KEYS : list pystr) (p : prompt)
    (made : list attempt) :
  (∀ n key p', completes (generate_content n key p') = false) →
  (call_gemini_with_rotation API_KEYS p made).1 = get_fallback_response.
Proof.
  intros Hfail. unfold call_gemini_with_rotation.
  destruct API_KEYS as [|key keys]; [done|].
  by rewrite rotate_all_fail.
Qed.

(** When no completion attempt succeeds, [main.py] answers every request
    it accepts with the fallback text as it is; [backend/main-ai.py]
    answers with the welcome message, with the fallback text, or, when
    records were found, with the fallback text put through the response
    clean-up. *)
Theorem outage_replies (API_KEYS : list pystr) (w : world) :
  (∀ n key p, completes (generate_content n key p) = false) →
  (∀ d body,
     (flask_chat API_KEYS (Some d) w).1 = Ok200 body →
     response body = get_fallback_response)
  ∧ (∀ request body,
       (post_chat API_KEYS request w).1 = Ok200 body →
       response body = welcome_message
       ∨ response body = get_fallback_response
       ∨ ∃ found, propiedades body = Some found ∧ found ≠ []
                  ∧ response body
                    = clean_response get_fallback_response (length found)).
Proof.
  intros Hfail. split.
  - intros d body. unfold flask_chat, flask_chat_body.
    destruct (d_message d) as [| |[|c m]]; try done.
    destruct (d_channel d) as [| |canal]; try done;
      destruct (d_filters d) as [| |frontend]; try done;
      cbn [get_or fmap option_fmap option_map mbind option_bind];
      match goal with
      | |- context [call_gemini_with_rotation ?keys ?p ?made] =>
          pose proof (gateway_outage keys p made Hfail) as Hanswer;
          destruct (call_gemini_with_rotation keys p made) as [answer made']
      end;
      cbn [fst] in *; intros [= <-]; exact Hanswer.
  - intros request body.
    unfold post_chat, chat, chat_try.
    destruct (valid_request request); [|done].
    case_bool_decide as Hblank; [done|].
    set (merged := combined_filters _ _).
    destruct (es_saludo_inicial _ _).
    + destruct (bool_decide (merged ≠ ∅)) eqn:Hmerged.
      * destruct (accepts _); [|done]. cbn [fst]. intros [= <-]. by left.
      * cbn [fst]. intros [= <-]. by left.
    + match goal with
      | |- context [call_gemini_with_rotation ?keys ?p ?made] =>
          pose proof (gateway_outage keys p made Hfail) as Hanswer;
          destruct (call_gemini_with_rotation keys p made) as [answer made']
      end.
      cbn [fst] in Hanswer. subst answer.
      destruct (bool_decide (merged ≠ ∅)) eqn:Hmerged.
      * destruct (query_properties _ merged) as [|r found] eqn:Hquery.
        -- destruct (accepts _); [|done]. cbn [fst]. intros [= <-].
           right. by left.
        -- destruct (accepts _); [|done]. cbn [fst]. intros [= <-].
           right. right. by exists (r :: found).
      * cbn [fst]. intros [= <-]. right. by left.
Qed.

End FastApiEffects.

Section HandlerEffectExamples.
#[local] Existing Instance latin_lower.
#[local] Existing Instance example_engine.
#[local] Existing Instance accept_all.
#[local] Existing Instance failing_provider.

Lemma reply_records_are_query_results_witness :
  ∃ body,
    (post_chat three_keys (plain_request "busco algo en Palermo")
       example_world).1 = Ok200 body
    ∧ propiedades body
      = if bool_decide
             (merged_filters (plain_request "busco algo en Palermo") ≠ ∅)
        then Some (query_properties (properties example_world)
                     (merged_filters (plain_request "busco algo en Palermo")))
        else None.
Proof.
  destruct (post_chat three_keys (plain_request "busco algo en Palermo")
              example_world).1
    as [body|status detail] eqn:Hreply; [|by vm_compute in Hreply].
  exists body. split; [reflexivity|].
  by apply (proj2 (reply_records_are_query_results three_keys example_world)).
Defined.

Lemma fastapi_counters_witness :
  valid_request (plain_request "busco algo en Palermo") = true
  ∧ requests_count
      (metrics (post_chat three_keys (plain_request "busco algo en Palermo")
                  example_world).2)
    = 1%nat.
Proof.
  split; [reflexivity|].
  exact (proj1 (fastapi_counters three_keys
                  (plain_request "busco algo en Palermo") example_world
                  eq_refl)).
Defined.

Lemma any_greeting_short_circuits_witness :
  es_saludo_inicial
    (str_lower (strip (message (plain_request "Buenas tardes"))))
    (contexto_anterior (plain_request "Buenas tardes")) = true
  ∧ attempts (post_chat three_keys (plain_request "Buenas tardes")
                example_world).2
    = attempts example_world
  ∧ ∀ body,
      (post_chat three_keys (plain_request "Buenas tardes")
         example_world).1 = Ok200 body →
      response body = welcome_message.
Proof.
  assert (Hgreeting :
    es_saludo_inicial
      (str_lower (strip (message (plain_request "Buenas tardes"))))
      (contexto_anterior (plain_request "Buenas tardes")) = true)
    by (vm_compute; reflexivity).
  split; [exact Hgreeting|].
  exact (any_greeting_short_circuits three_keys
           (plain_request "Buenas tardes") example_world Hgreeting).
Defined.

Lemma outage_replies_witness :
  (∀ n key p, completes (generate_content n key p) = false)
  ∧ ∀ d body,
      (flask_chat three_keys (Some d) example_world).1 = Ok200 body →
      response body = get_fallback_response.
Proof.
  assert (Hfail : ∀ n key p, completes (generate_content n key p) = false)
    by reflexivity.
  split; [exact Hfail|].
  exact (proj1 (outage_replies three_keys example_world Hfail)).
Defined.

End HandlerEffectExamples.

(** ** The filter options of [main.py] *)

Lemma str_leb_total (a b : pystr) : str_leb a b = true ∨ str_leb b a = true.
Proof.
  revert b. induction a as [|x a IH]; intros [|y b]; cbn [str_leb];
    [by left..|by right|].
  destruct (IH b) as [Hab|Hba].
  - destruct (N.lt_trichotomy x y) as [Hlt|[->|Hgt]].
    + left. by rewrite (proj2 (N.ltb_lt x y) Hlt).
    + left. by rewrite N.eqb_refl, Hab, orb_true_r.
    + right. by rewrite (proj2 (N.ltb_lt y x) Hgt).
  - destruct (N.lt_trichotomy x y) as [Hlt|[->|Hgt]].
    + left. by rewrite (proj2 (N.ltb_lt x y) Hlt).
    + right. by rewrite N.eqb_refl, Hba, orb_true_r.
    + right. by rewrite (proj2 (N.ltb_lt y x) Hgt).
Qed.

Lemma str_leb_trans (a b c : pystr) :
  str_leb a b = true → str_leb b c = true → str_leb a c = true.
Proof.
  revert b c. induction a as [|x a IH]; intros [|y b] [|z c];
    cbn [str_leb]; try done.
  intros [Hxy|[Hxy Hab]%andb_true_iff]%orb_true_iff
         [Hyz|[Hyz Hbc]%andb_true_iff]%orb_true_iff;
    rewrite ?N.ltb_lt, ?N.eqb_eq in *; apply orb_true_iff.
  - left. apply N.ltb_lt. lia.
  - left. apply N.ltb_lt. lia.
  - left. apply N.ltb_lt. lia.
  - right. subst. rewrite N.eqb_refl. by apply (IH b c).
Qed.

#[local] Instance str_le_total : Total str_le.
Proof. intros a b. apply str_leb_total. Qed.

#[local] Instance str_le_trans : Transitive str_le.
Proof. intros a b c. apply str_leb_trans. Qed.

Lemma distinct_values_from (seen values : list pystr) :
  NoDup seen →
  let result :=
    fold_left
      (λ seen value,
         if str_truthy (Some value) && negb (bool_decide (value ∈ seen))
         then seen ++ [value] else seen)
      values seen in
  NoDup result
  ∧ ∀ value, value ∈ result ↔
             value ∈ seen ∨ (value ≠ [] ∧ value ∈ values).
Proof.
  revert seen. induction values as [|v values IH]; intros seen Hseen.
  - cbn. split; [done|]. intros value. split; [by left|].
    intros [Hin|[_ Hin%elem_of_nil]]; done.
  - cbn [fold_left].
    destruct (str_truthy (Some v) && negb (bool_decide (v ∈ seen)))
      eqn:Hnew.
    + apply andb_true_iff in Hnew as [Htruthy Hfresh].
      apply negb_true_iff, bool_decide_eq_false in Hfresh.
      destruct (IH (seen ++ [v])) as [Hnodup Hmembers].
      { apply NoDup_app. repeat split; [done| |apply NoDup_singleton].
        intros x Hx ->%list_elem_of_singleton. done. }
      split; [exact Hnodup|]. intros value. rewrite Hmembers.
      rewrite elem_of_app, list_elem_of_singleton, elem_of_cons.
      split.
      * intros [[Hin| ->]|[Hne Hin]]; [by left| |by right; split; [|right]].
        right. split; [|by left]. by destruct v.
      * intros [Hin|[Hne [->|Hin]]]; [by left; left|by left; right|].
        by right.
    + destruct (IH seen Hseen) as [Hnodup Hmembers].
      split; [exact Hnodup|]. intros value. rewrite Hmembers.
      rewrite elem_of_cons. split.
      * intros [Hin|[Hne Hin]]; [by left|]. right. split; [done|by right].
      * intros [Hin|[Hne [->|Hin]]]; [by left| |by right].
        left. apply andb_false_iff in Hnew as [Hempty|Hseen'].
        -- by destruct v.
        -- by apply negb_false_iff, bool_decide_eq_true in Hseen'.
Qed.

Lemma sorted_distinct_values (values : list pystr) :
  StronglySorted str_le (sorted (distinct_values values))
  ∧ NoDup (sorted (distinct_values values))
  ∧ ∀ value, value ∈ sorted (distinct_values values) ↔
             value ≠ [] ∧ value ∈ values.
Proof.
  destruct (distinct_values_from [] values (NoDup_nil_2))
    as [Hnodup Hmembers].
  unfold sorted. split; [apply StronglySorted_merge_sort; apply _|].
  split.
  - by rewrite merge_sort_Permutation.
  - intros value. rewrite merge_sort_Permutation.
    unfold distinct_values. rewrite Hmembers. split.
    + by intros [Hin%elem_of_nil|Hin].
    + by right.
Qed.

Section FilterOptions.
Context `{Engine}.

Lemma query_everything (db : list row) :
  query_properties db ∅ ≡ₚ to_dict <$> db.
Proof.
  rewrite query_properties_selected.
  assert (Hall : filter (λ r, selected ∅ r) db = db).
  { apply filter_all. intros r. apply Is_true_true, selected_spec.
    intros k meaning v _. unfold active. by rewrite lookup_empty. }
  rewrite Hall.
  destruct (mapM bind_condition (where_conditions ∅)); [|done].
  by rewrite order_by_precio_perm.
Qed.

Lemma option_values (on_dict : prop_dict → pystr) (on_row : row → pystr)
    (db : list row) (name : pystr) :
  (∀ r, on_dict (to_dict r) = on_row r) →
  name ∈ sorted (distinct_values (on_dict <$> query_properties db ∅)) ↔
  name ≠ [] ∧ ∃ r, r ∈ db ∧ on_row r = name.
Proof.
  intros Hsame.
  destruct (sorted_distinct_values (on_dict <$> query_properties db ∅))
    as (_ & _ & Hmembers).
  rewrite Hmembers, query_everything, <- list_fmap_compose. split.
  - intros [Hne (r & -> & Hr)%list_elem_of_fmap]. split; [done|].
    exists r. split; [done|]. symmetry. apply Hsame.
  - intros [Hne (r & Hr & <-)]. split; [done|].
    apply list_elem_of_fmap. exists r. split; [|done].
    symmetry. apply Hsame.
Qed.

(** The filter options offered to the form: [barrios] and [tipos] are in
    ascending order without repetition and hold exactly the non-empty
    neighbourhoods and types of the stored records; [total] is the number
    of stored records. *)
Theorem filter_options_cover_the_catalogue (db : list row) :
  let options := get_filter_options db in
  StronglySorted str_le (barrios options) ∧ NoDup (barrios options)
  ∧ (∀ name, name ∈ barrios options ↔
             name ≠ [] ∧ ∃ r, r ∈ db ∧ barrio r = name)
  ∧ StronglySorted str_le (tipos options) ∧ NoDup (tipos options)
  ∧ (∀ name, name ∈ tipos options ↔
             name ≠ [] ∧ ∃ r, r ∈ db ∧ tipo r = name)
  ∧ total options = length db.
Proof.
  cbv zeta. unfold get_filter_options. cbn [barrios tipos total].
  split; [apply sorted_distinct_values|].
  split; [apply sorted_distinct_values|].
  split; [intros name; by apply option_values|].
  split; [apply sorted_distinct_values|].
  split; [apply sorted_distinct_values|].
  split; [intros name; by apply option_values|].
  by rewrite query_everything, length_fmap.
Qed.

End FilterOptions.

(** ** From the message to the records *)

Lemma gazetteer_names_are_literal :
  Forall (λ barrio, Forall (λ c, c ≠ 37 ∧ c ≠ 95) (lower_latin <$> barrio))
    BARRIOS.
Proof. by_computation. Qed.

Section DetectedNeighbourhood.
Context `{StrLower} `{Engine} `{!Provider} `{!ResponseModel}.

Lemma detected_neighbourhood_is_literal (text_lower name : pystr) :
  detect_filters text_lower !! k_neighborhood = Some (PStr name) →
  name ≠ [] ∧ wildcard_free name.
Proof.
  intros Hname.
  destruct (detect_filters_entries text_lower _ _ Hname)
    as [[_ (barrio & Hbarrio & [= ->] & _)]
       |[[Hkey _]|[[Hkey _]|[Hkey _]]]].
  - split.
    + pose proof (barrio_not_empty barrio Hbarrio) as Htruthy.
      by destruct (str_lower barrio).
    + rewrite (str_lower_barrio barrio Hbarrio).
      by apply (proj1 (Forall_forall _ _) gazetteer_names_are_literal).
  - vm_compute in Hkey. discriminate Hkey.
  - vm_compute in Hkey. discriminate Hkey.
  - exfalso. revert Hkey. by_computation.
Qed.

Lemma neighbourhood_match (db : list row) (filters : filter_dict)
    (s : pystr) (r : prop_dict) :
  s ≠ [] → wildcard_free s →
  filters !! k_neighborhood = Some (PStr s) →
  r ∈ query_properties db filters →
  occurs_ignoring_ascii_case s (barrio r).
Proof.
  intros Hs Hfree Hk Hr.
  apply (query_with_text db filters k_neighborhood Sql.c_barrio Sql.LIKE
           substring_pattern s r) in Hr
    as (Hothers & pattern & Hpattern & Hlike);
    [|by left|done|done|by eexists].
  injection Hpattern as <-.
  by apply (like_substring s (barrio r) Hfree).
Qed.

(** When the extractor finds a neighbourhood in the message, every record
    of a reply with status 200, of either handler, lies in it: the
    neighbourhood of the record contains the detected name, the case of
    ASCII letters disregarded, whatever filters the form sent. *)
Theorem detected_neighbourhood_restricts_records (API_KEYS : list pystr)
    (w : world) (name : pystr) :
  (∀ d message body found r,
     d_message d = Value message →
     detect_filters (str_lower (strip message)) !! k_neighborhood
     = Some (PStr name) →
     (flask_chat API_KEYS (Some d) w).1 = Ok200 body →
     propiedades body = Some found → r ∈ found →
     occurs_ignoring_ascii_case name (barrio r))
  ∧ (∀ request body found r,
       detect_filters (str_lower (strip (message request)))
         !! k_neighborhood = Some (PStr name) →
       (post_chat API_KEYS request w).1 = Ok200 body →
       propiedades body = Some found → r ∈ found →
       occurs_ignoring_ascii_case name (barrio r)).
Proof.
  split.
  - intros d message body found r Hmessage Hname Hreply Hfound Hr.
    destruct (detected_neighbourhood_is_literal _ _ Hname) as [Hne Hfree].
    apply flask_chat_records in Hreply. rewrite Hfound in Hreply.
    destruct (bool_decide _); [|done]. injection Hreply as ->.
    apply (neighbourhood_match _ _ name r Hne Hfree) in Hr; [done|].
    unfold flask_merged_filters, combined_filters. rewrite Hmessage.
    by apply lookup_union_Some_l.
  - intros request body found r Hname Hreply Hfound Hr.
    destruct (detected_neighbourhood_is_literal _ _ Hname) as [Hne Hfree].
    apply post_chat_records in Hreply. rewrite Hfound in Hreply.
    destruct (bool_decide _); [|done]. injection Hreply as ->.
    apply (neighbourhood_match _ _ name r Hne Hfree) in Hr; [done|].
    unfold merged_filters, combined_filters.
    by apply lookup_union_Some_l.
Qed.

End DetectedNeighbourhood.

Section DetectedNeighbourhoodExample.
#[local] Existing Instance latin_lower.
#[local] Existing Instance example_engine.
#[local] Existing Instance accept_all.
#[local] Existing Instance failing_provider.

Lemma detected_neighbourhood_restricts_records_witness :
  detect_filters
    (str_lower (strip (message (plain_request "busco algo en Palermo"))))
    !! k_neighborhood = Some (PStr (py "palermo"))
  ∧ ∃ body found,
      (post_chat three_keys (plain_request "busco algo en Palermo")
         example_world).1 = Ok200 body
      ∧ propiedades body = Some found ∧ length found = 2%nat
      ∧ ∀ r, r ∈ found →
             occurs_ignoring_ascii_case (py "palermo") (barrio r).
Proof.
  assert (Hname :
    detect_filters
      (str_lower (strip (message (plain_request "busco algo en Palermo"))))
      !! k_neighborhood = Some (PStr (py "palermo")))
    by (vm_compute; reflexivity).
  split; [exact Hname|].
  assert (Hcount :
    match (post_chat three_keys (plain_request "busco algo en Palermo")
             example_world).1 with
    | Ok200 b => length <$> propiedades b
    | HttpError _ _ => None
    end = Some 2%nat) by (vm_compute; reflexivity).
  destruct (post_chat three_keys (plain_request "busco algo en Palermo")
              example_world).1
    as [body|status detail] eqn:Hreply; [|discriminate Hcount].
  destruct (propiedades body) as [found|] eqn:Hfound; [|discriminate Hcount].
  exists body, found.
  split; [reflexivity|]. split; [exact Hfound|].
  split; [by injection Hcount|].
  intros r Hr.
  exact (proj2 (detected_neighbourhood_restricts_records three_keys
                  example_world (py "palermo"))
           (plain_request "busco algo en Palermo") body found r
           Hname Hreply Hfound Hr).
Defined.

End DetectedNeighbourhoodExample.
